(** * pykube.objects: the resource object abstraction

    A shallow embedding of [src/pykube/objects.py].  Documents are JSON
    trees held in the cells of a store, so that [self.obj] and
    [self._original_obj] are references and a dict shared with the caller
    is shared here too.  Python exceptions are an explicit outcome.  The
    instance, the store, the transport collaborator and the record of what
    was sent are threaded through a small state-and-exception monad. *)

From Stdlib Require Import ZArith String Ascii List Bool Lia.
From stdpp Require Import base option list strings gmap pretty.

Set Warnings "-register-all".
Local Open Scope Z_scope.

(** ** JSON documents and the Python primitives used on them *)

Module Json.

(** The value of [json.loads]: a dict keeps its insertion order, so it is
    an association list with first-match lookup.  Numbers are the integers
    the scalar control fields hold. *)
Inductive json : Type :=
| JNull
| JBool (b : bool)
| JNum (z : Z)
| JStr (s : string)
| JList (l : list json)
| JDict (d : list (string * json)).

(** Python exceptions raised by the module and by the primitives it uses. *)
Inductive exn : Type :=
| KeyError (key : string)
| TypeError
| AttributeError (attr : string)
| ValueError
| HTTPError (status : Z)
| ObjectDoesNotExist (msg : string).

(** What running a piece of code yields: a value, a raised exception, or
    [OutOfFuel] when a [while True] loop was cut off by the fuel bound. *)
Inductive outcome (A : Type) : Type :=
| Ok (a : A)
| Raise (e : exn)
| OutOfFuel.
Arguments Ok {A} a.
Arguments Raise {A} e.
Arguments OutOfFuel {A}.

Fixpoint assoc (k : string) (d : list (string * json)) : option json :=
  match d with
  | [] => None
  | (k', v) :: d' => if String.eqb k k' then Some v else assoc k d'
  end.

(** [d[k] = v] on a dict: overwrite in place, or append a new entry. *)
Fixpoint assoc_set (k : string) (v : json) (d : list (string * json))
  : list (string * json) :=
  match d with
  | [] => [(k, v)]
  | (k', v') :: d' =>
      if String.eqb k k' then (k, v) :: d' else (k', v') :: assoc_set k v d'
  end.

(** [x[k]] with a string key: [KeyError] on a dict without the key,
    [TypeError] on anything that is not a dict. *)
Definition getitem (x : json) (k : string) : outcome json :=
  match x with
  | JDict d => match assoc k d with Some v => Ok v | None => Raise (KeyError k) end
  | _ => Raise TypeError
  end.

(** [x.get(k)] : [None] for a missing key, [AttributeError] off a dict. *)
Definition get (x : json) (k : string) : outcome json :=
  match x with
  | JDict d => Ok (default JNull (assoc k d))
  | _ => Raise (AttributeError "get")
  end.

(** [x.get(k, dflt)]. *)
Definition get_default (x : json) (k : string) (dflt : json) : outcome json :=
  match x with
  | JDict d => Ok (default dflt (assoc k d))
  | _ => Raise (AttributeError "get")
  end.

(** [x[k] = v]. *)
Definition setitem (x : json) (k : string) (v : json) : outcome json :=
  match x with
  | JDict d => Ok (JDict (assoc_set k v d))
  | _ => Raise TypeError
  end.

(** [x[k1][k2] = v]: the inner dict is fetched, updated, and (dicts being
    shared by reference) the update is visible through [x]. *)
Definition setitem2 (x : json) (k1 k2 : string) (v : json) : outcome json :=
  match getitem x k1 with
  | Ok inner =>
      match setitem inner k2 v with
      | Ok inner' =>
          match x with
          | JDict d => Ok (JDict (assoc_set k1 inner' d))
          | _ => Raise TypeError
          end
      | Raise e => Raise e
      | OutOfFuel => OutOfFuel
      end
  | Raise e => Raise e
  | OutOfFuel => OutOfFuel
  end.

(** Truth value of [if x:]. *)
Definition truthy (x : json) : bool :=
  match x with
  | JNull => false
  | JBool b => b
  | JNum z => negb (Z.eqb z 0)
  | JStr s => negb (String.eqb s "")
  | JList l => match l with [] => false | _ => true end
  | JDict d => match d with [] => false | _ => true end
  end.

(** Python's [==]: [bool] is a subclass of [int], lists compare
    element-wise and dicts compare as unordered maps. *)
Fixpoint py_eq (a b : json) : bool :=
  match a, b with
  | JNull, JNull => true
  | JBool x, JBool y => Bool.eqb x y
  | JBool x, JNum y => Z.eqb (if x then 1 else 0) y
  | JNum x, JBool y => Z.eqb x (if y then 1 else 0)
  | JNum x, JNum y => Z.eqb x y
  | JStr x, JStr y => String.eqb x y
  | JList l1, JList l2 =>
      (fix go (l1 l2 : list json) : bool :=
         match l1, l2 with
         | [], [] => true
         | x :: l1', y :: l2' => py_eq x y && go l1' l2'
         | _, _ => false
         end) l1 l2
  | JDict d1, JDict d2 =>
      Nat.eqb (length d1) (length d2) &&
      (fix all (d : list (string * json)) : bool :=
         match d with
         | [] => true
         | (k, v) :: d' =>
             match assoc k d2 with
             | Some v' => py_eq v v'
             | None => false
             end && all d'
         end) d1
  | _, _ => false
  end.

Definition lower_ascii (c : ascii) : ascii :=
  let n := nat_of_ascii c in
  if ((65 <=? n) && (n <=? 90))%nat then ascii_of_nat (n + 32) else c.

(** [s.lower()] on ASCII text. *)
Fixpoint lower (s : string) : string :=
  match s with
  | EmptyString => EmptyString
  | String c s' => String (lower_ascii c) (lower s')
  end.

End Json.
Export Json.

(** [outcome] is the exception monad of the pure accessors. *)
#[global] Instance outcome_ret : MRet outcome := fun _ a => Ok a.
#[global] Instance outcome_bind : MBind outcome := fun _ _ f c =>
  match c with
  | Ok a => f a
  | Raise e => Raise e
  | OutOfFuel => OutOfFuel
  end.

(** ** Collaborators outside the module *)

Inductive Method : Type := GET | POST | PATCH | DELETE.

(** A value passed as a keyword argument to the transport. *)
Inductive kwval : Type :=
| KStr (s : string)
| KJson (j : json)
| KHeaders (h : list (string * string)).

(** The keyword dictionary [kw] built by [api_kwargs]. *)
Abbreviation Kw := (gmap string kwval).

(** Modelled from the spec: the response object of the transport
    collaborator, whose class is not under src/.  It exposes a status
    code, a JSON-decodable body ([None] when the body does not decode),
    the raw body text, and a success flag derived from the status. *)
Record Response : Type := mkResponse {
  status_code : Z;
  json_body : option json;
  text : string
}.

(** Modelled from the spec: the boolean success flag of a response.  A
    status is an error exactly when it is a client or server error
    (400 to 599); every other status counts as success. *)
Definition ok (r : Response) : bool :=
  negb ((400 <=? status_code r) && (status_code r <? 600)).

Inductive event : Type :=
| Call (m : Method) (kw : Kw)
| Sleep (secs : Z).

(** The transport collaborator [self.api]: each method call consumes the
    keyword dictionary and answers with a response, changing the remote
    world. *)
Class Transport : Type := {
  World : Type;
  request : Method -> Kw -> World -> Response * World
}.

(** Library primitives consumed as black boxes: [json.dumps],
    [jsonpatch.make_patch] (the operations of the edit script, as the JSON
    objects the patch holds), [urllib]'s [quote_plus], and [repr] of a
    list or dict. *)
Class Library : Type := {
  json_dumps : json -> string;
  make_patch : json -> json -> list json;
  quote_plus : string -> string;
  py_repr : json -> string
}.

(** ** Resource kinds: the class table of the module *)

Inductive Kind : Type :=
| ConfigMap | DaemonSet | Deployment | Endpoint | Ingress | Job
| Namespace | Node | Pod | ReplicationController | ReplicaSet | Secret
| Service | PersistentVolume | PersistentVolumeClaim.

Definition DEFAULT_NAMESPACE : json := JStr "default".

Definition version (k : Kind) : string :=
  match k with
  | ConfigMap => "v1"
  | DaemonSet => "extensions/v1beta1"
  | Deployment => "extensions/v1beta1"
  | Endpoint => "v1"
  | Ingress => "extensions/v1beta1"
  | Job => "batch/v1"
  | Namespace => "v1"
  | Node => "v1"
  | Pod => "v1"
  | ReplicationController => "v1"
  | ReplicaSet => "extensions/v1beta1"
  | Secret => "v1"
  | Service => "v1"
  | PersistentVolume => "v1"
  | PersistentVolumeClaim => "v1"
  end.

Definition endpoint (k : Kind) : string :=
  match k with
  | ConfigMap => "configmaps"
  | DaemonSet => "daemonsets"
  | Deployment => "deployments"
  | Endpoint => "endpoints"
  | Ingress => "ingresses"
  | Job => "jobs"
  | Namespace => "namespaces"
  | Node => "nodes"
  | Pod => "pods"
  | ReplicationController => "replicationcontrollers"
  | ReplicaSet => "replicasets"
  | Secret => "secrets"
  | Service => "services"
  | PersistentVolume => "persistentvolumes"
  | PersistentVolumeClaim => "persistentvolumeclaims"
  end.

(** [base = None] on [APIObject]; no class overrides it. *)
Definition base (k : Kind) : option string := None.

(** The classes deriving from [NamespacedAPIObject]. *)
Definition namespaced (k : Kind) : bool :=
  match k with
  | Namespace | Node | PersistentVolume => false
  | _ => true
  end.

(** The classes deriving from [ReplicatedAPIObject]. *)
Definition replicated (k : Kind) : bool :=
  match k with
  | Deployment | ReplicationController | ReplicaSet => true
  | _ => false
  end.

(** ** Resource instances *)

(** The attributes of an instance as they read at one moment: its class
    and the contents of the two dicts it holds. *)
Record APIObject : Type := mkAPIObject {
  cls : Kind;
  obj : json;
  _original_obj : json
}.

(** What the attributes read right after [APIObject(api, o)]. *)
Definition new (k : Kind) (o : json) : APIObject :=
  {| cls := k; obj := o; _original_obj := o |}.

(** The same instance with another document. *)
Definition with_obj (self : APIObject) (d : json) : APIObject :=
  {| cls := cls self; obj := d; _original_obj := _original_obj self |}.

(** [name] property. *)
Definition name (self : APIObject) : outcome json :=
  m ← getitem (obj self) "metadata"; getitem m "name".

(** [annotations] property. *)
Definition annotations (self : APIObject) : outcome json :=
  m ← getitem (obj self) "metadata"; get_default m "annotations" (JDict []).

(** [namespace]: the class attribute [None] on [APIObject], the property
    of [NamespacedAPIObject] on its subclasses. *)
Definition namespace (self : APIObject) : outcome (option json) :=
  if namespaced (cls self) then
    m ← getitem (obj self) "metadata";
    ns ← get m "namespace";
    if truthy ns then
      m' ← getitem (obj self) "metadata";
      v ← getitem m' "namespace";
      mret (Some v)
    else mret (Some DEFAULT_NAMESPACE)
  else mret None.

(** [replicas] getter of [ReplicatedAPIObject]. *)
Definition replicas (self : APIObject) : outcome json :=
  if replicated (cls self) then
    s ← getitem (obj self) "spec"; getitem s "replicas"
  else Raise (AttributeError "replicas").

(** No class of the module defines an attribute called [self]. *)
Definition attr_self (self : APIObject) : outcome APIObject :=
  Raise (AttributeError "self").

(** [iter(x)] as a [for] clause performs it: a list gives its elements,
    a dict its keys, a string its characters; nothing else is iterable. *)
Definition py_iter (x : json) : outcome (list json) :=
  match x with
  | JList l => Ok l
  | JDict d => Ok (map (fun kv => JStr kv.1) d)
  | JStr s =>
      Ok (map (fun c => JStr (String c EmptyString)) (list_ascii_of_string s))
  | _ => Raise TypeError
  end.

(** [next((c for c in cs if c["type"] == "Ready"), None)]: the elements
    are looked at in order, and no further than the first match. *)
Fixpoint first_ready (cs : list json) : outcome (option json) :=
  match cs with
  | [] => Ok None
  | c :: cs' =>
      t ← getitem c "type";
      if py_eq t (JStr "Ready") then Ok (Some c) else first_ready cs'
  end.

(** [ready] property of [Pod]. *)
Definition ready (self : APIObject) : outcome bool :=
  match cls self with
  | Pod =>
      st ← getitem (obj self) "status";
      cs ← getitem st "conditions";
      it ← py_iter cs;
      condition ← first_ready it;
      match condition with
      | None => Ok false
      | Some c => s ← getitem c "status"; Ok (py_eq s (JStr "True"))
      end
  | _ => Raise (AttributeError "ready")
  end.

Section Objects.
Context {T : Transport} {L : Library}.

(** [str(v)], also what ["{}".format(v)] renders. *)
Definition py_str (v : json) : string :=
  match v with
  | JNull => "None"
  | JBool true => "True"
  | JBool false => "False"
  | JNum z => pretty z
  | JStr s => s
  | _ => py_repr v
  end.

(** [urlencode] of a dict: [key=value] pairs joined by [&], each side
    passed through [str] and [quote_plus]. *)
Fixpoint urlencode (q : list (string * json)) : string :=
  match q with
  | [] => ""
  | [(k, v)] => quote_plus k +:+ "=" +:+ quote_plus (py_str v)
  | (k, v) :: q' =>
      quote_plus k +:+ "=" +:+ quote_plus (py_str v) +:+ "&" +:+ urlencode q'
  end.

(** [api_kwargs(collection=, subcommand=, query_params=, **kwargs)]. *)
Definition api_kwargs (self : APIObject) (collection : bool)
    (subcommand : option string) (query_params : option (list (string * json)))
    (kwargs : Kw) : outcome Kw :=
  let kw : Kw := ∅ in
  url ← (if collection then mret (endpoint (cls self))
         else m ← getitem (_original_obj self) "metadata";
              n ← getitem m "name";
              mret (endpoint (cls self) +:+ "/" +:+ py_str n));
  let kw := <["url" := KStr url]> kw in
  let kw := match base (cls self) with
            | Some b => <["base" := KStr b]> kw
            | None => kw
            end in
  let kw := <["version" := KStr (version (cls self))]> kw in
  ns ← namespace self;
  let kw := match ns with
            | Some v => <["namespace" := KJson v]> kw
            | None => kw
            end in
  let url := match subcommand with
             | Some sub => if String.eqb sub "" then url else url +:+ "/" +:+ sub
             | None => url
             end in
  let url := match query_params with
             | Some ((_ :: _) as q) => url +:+ "?" +:+ urlencode q
             | _ => url
             end in
  let kw := <["url" := KStr url]> kw in
  mret (kwargs ∪ kw).

(** *** The store: dicts have identity

    [self.obj] and [self._original_obj] are references to dicts.  A dict
    lives in a cell of the store; whoever holds the reference (the caller
    who passed the dict to the constructor holds the one in [self.obj])
    sees and makes the same changes. *)

Definition loc : Type := nat.

Record Instance : Type := mkInstance {
  class_of : Kind;
  obj_ref : loc;
  _original_obj_ref : loc
}.

(** *** The monad of the methods: the instance, the store, the remote
    world, and the record of what was sent and slept. *)

Record St : Type := mkSt {
  this : Instance;
  store : list json;
  api : World;
  trace : list event
}.

Definition deref (h : list json) (l : loc) : json := default JNull (h !! l).

(** The attributes of the instance, read through its references. *)
Definition self (st : St) : APIObject :=
  {| cls := class_of (this st);
     obj := deref (store st) (obj_ref (this st));
     _original_obj := deref (store st) (_original_obj_ref (this st)) |}.

Definition M (A : Type) : Type := St -> outcome A * St.

#[global] Instance M_ret : MRet M := fun _ a st => (Ok a, st).
#[global] Instance M_bind : MBind M := fun _ _ f c st =>
  match c st with
  | (Ok a, st') => f a st'
  | (Raise e, st') => (Raise e, st')
  | (OutOfFuel, st') => (OutOfFuel, st')
  end.

Definition raise {A} (e : exn) : M A := fun st => (Raise e, st).
Definition out_of_fuel {A} : M A := fun st => (OutOfFuel, st).
Definition lift {A} (c : outcome A) : M A := fun st => (c, st).
Definition get_self : M APIObject := fun st => (Ok (self st), st).

(** A new dict with contents [v]; its reference is returned. *)
Definition alloc (v : json) : M loc := fun st =>
  (Ok (length (store st)),
   {| this := this st; store := store st ++ [v];
      api := api st; trace := trace st |}).

(** [copy.deepcopy(o)]: a new dict with the contents of [o], sharing
    nothing with it. *)
Definition deepcopy (o : loc) : M loc := fun st =>
  alloc (deref (store st) o) st.

(** An assignment into the document dict, after which it reads [d]. *)
Definition store_obj (d : json) : M unit := fun st =>
  (Ok tt,
   {| this := this st; store := <[obj_ref (this st) := d]> (store st);
      api := api st; trace := trace st |}).

(** [self.obj = o]. *)
Definition set_attr_obj (o : loc) : M unit := fun st =>
  (Ok tt,
   {| this := {| class_of := class_of (this st); obj_ref := o;
                 _original_obj_ref := _original_obj_ref (this st) |};
      store := store st; api := api st; trace := trace st |}).

(** [self._original_obj = o]. *)
Definition set_attr_original_obj (o : loc) : M unit := fun st =>
  (Ok tt,
   {| this := {| class_of := class_of (this st); obj_ref := obj_ref (this st);
                 _original_obj_ref := o |};
      store := store st; api := api st; trace := trace st |}).

(** [self.api.get], [post], [patch] and [delete], called with the
    keyword dictionary [kw]. *)
Definition api_call (m : Method) (kw : Kw) : M Response := fun st =>
  let '(r, w) := request m kw (api st) in
  (Ok r, {| this := this st; store := store st; api := w;
            trace := trace st ++ [Call m kw] |}).

(** [time.sleep(secs)]. *)
Definition sleep (secs : Z) : M unit := fun st =>
  (Ok tt, {| this := this st; store := store st; api := api st;
             trace := trace st ++ [Sleep secs] |}).

(** Modelled from the spec: [raise_for_status] of the transport
    collaborator (its module is not under src/), which fails on a
    non-success status and passes otherwise. *)
Definition raise_for_status (r : Response) : M unit :=
  if ok r then mret tt else raise (HTTPError (status_code r)).

(** [r.json()]: the decoded body, as a new dict. *)
Definition response_json (r : Response) : M loc :=
  match json_body r with
  | Some b => alloc b
  | None => raise ValueError
  end.

(** [set_obj]. *)
Definition set_obj (o : loc) : M unit :=
  set_attr_obj o;;
  c ← deepcopy o;
  set_attr_original_obj c.

Definition exists_ (ensure : bool) : M bool :=
  s ← get_self;
  kw ← lift (api_kwargs s false None None ∅);
  r ← api_call GET kw;
  (if negb ((status_code r =? 200) || (status_code r =? 404))
   then raise_for_status r else mret tt);;
  if negb (ok r) then
    if ensure then
      s ← get_self;
      n ← lift (name s);
      raise (ObjectDoesNotExist (py_str n +:+ " does not exist."))
    else mret false
  else mret true.

Definition create : M unit :=
  s ← get_self;
  kw ← lift (api_kwargs s true None None
               {[ "data" := KStr (json_dumps (obj s)) ]});
  r ← api_call POST kw;
  raise_for_status r;;
  b ← response_json r;
  set_obj b.

Definition reload : M unit :=
  s ← get_self;
  kw ← lift (api_kwargs s false None None ∅);
  r ← api_call GET kw;
  raise_for_status r;;
  b ← response_json r;
  set_obj b.

Definition patch_headers : list (string * string) :=
  [("Content-Type", "application/json-patch+json")].

(** [str(patch)] is [json.dumps] of the list of operations. *)
Definition update : M unit :=
  s ← get_self;
  let patch := make_patch (_original_obj s) (obj s) in
  kw ← lift (api_kwargs s false None None
               (<["headers" := KHeaders patch_headers]>
                  {[ "data" := KStr (json_dumps (JList patch)) ]}));
  r ← api_call PATCH kw;
  raise_for_status r;;
  b ← response_json r;
  set_obj b.

Definition delete : M unit :=
  s ← get_self;
  kw ← lift (api_kwargs s false None None ∅);
  r ← api_call DELETE kw;
  if negb (status_code r =? 404) then raise_for_status r else mret tt.

(** [replicas] setter of [ReplicatedAPIObject]. *)
Definition set_replicas (value : json) : M unit :=
  s ← get_self;
  if replicated (cls s) then
    o ← lift (setitem2 (obj s) "spec" "replicas" value);
    store_obj o
  else raise (AttributeError "replicas").

(** The [while True] loop of [ReplicationController.scale]. *)
Fixpoint ReplicationController_scale_loop (fuel : nat) (replicas_ : json)
  : M unit :=
  match fuel with
  | O => out_of_fuel
  | S fuel' =>
      reload;;
      s ← get_self;
      r ← lift (replicas s);
      if py_eq r replicas_ then mret tt
      else sleep 1;; ReplicationController_scale_loop fuel' replicas_
  end.

(** [ReplicationController.scale(replicas=None)]; [JNull] is [None]. *)
Definition ReplicationController_scale (fuel : nat) (replicas_ : json)
  : M unit :=
  replicas_ ← (match replicas_ with
               | JNull => s ← get_self; lift (replicas s)
               | _ => mret replicas_
               end);
  exists_ true;;
  set_replicas replicas_;;
  update;;
  ReplicationController_scale_loop fuel replicas_.

(** The [while True] loop of [Job.scale], with its [self.self.obj]. *)
Fixpoint Job_scale_loop (fuel : nat) (parallelism : json) : M unit :=
  match fuel with
  | O => out_of_fuel
  | S fuel' =>
      reload;;
      s ← get_self;
      s' ← lift (attr_self s);
      sp ← lift (getitem (obj s') "spec");
      p ← lift (getitem sp "parallelism");
      if py_eq p parallelism then mret tt
      else sleep 1;; Job_scale_loop fuel' parallelism
  end.

(** [Job.scale(replicas=None)]. *)
Definition Job_scale (fuel : nat) (replicas_ : json) : M unit :=
  let parallelism := replicas_ in
  parallelism ← (match parallelism with
                 | JNull =>
                     s ← get_self;
                     sp ← lift (getitem (obj s) "spec");
                     lift (getitem sp "parallelism")
                 | _ => mret parallelism
                 end);
  exists_ true;;
  s ← get_self;
  o ← lift (setitem2 (obj s) "spec" "parallelism" parallelism);
  store_obj o;;
  update;;
  Job_scale_loop fuel parallelism.

(** [instance.scale(replicas)]: only [Job] and [ReplicationController]
    define the method; looking it up on any other class fails. *)
Definition scale (fuel : nat) (replicas_ : json) : M unit :=
  s ← get_self;
  match cls s with
  | Job => Job_scale fuel replicas_
  | ReplicationController => ReplicationController_scale fuel replicas_
  | _ => raise (AttributeError "scale")
  end.

(** The [params] dict of [Pod.execute]; an option left at [None]
    ([JNull]) adds no entry. *)
Definition execute_params (command stdin stdout stderr tty container : json)
  : list (string * json) :=
  let params := [] in
  let params := assoc_set "command" (JStr (py_str command)) params in
  let params := match stdin with
                | JNull => params
                | _ => assoc_set "stdin" (JStr (lower (py_str stdin))) params
                end in
  let params := match stdout with
                | JNull => params
                | _ => assoc_set "stdout" (JStr (lower (py_str stdout))) params
                end in
  let params := match stderr with
                | JNull => params
                | _ => assoc_set "stderr" (JStr (lower (py_str stderr))) params
                end in
  let params := match tty with
                | JNull => params
                | _ => assoc_set "tty" tty params
                end in
  let params := match container with
                | JNull => params
                | _ => assoc_set "container" container params
                end in
  params.

(** [Pod.execute]; here the response's own [raise_for_status] is called. *)
Definition Pod_execute (command stdin stdout stderr tty container : json)
  : M string :=
  let params := execute_params command stdin stdout stderr tty container in
  s ← get_self;
  kw ← lift (api_kwargs s false (Some "exec") (Some params) ∅);
  response ← api_call GET kw;
  raise_for_status response;;
  mret (text response).

(** [instance.execute(...)]: defined on [Pod] only. *)
Definition execute (command stdin stdout stderr tty container : json)
  : M string :=
  s ← get_self;
  match cls s with
  | Pod => Pod_execute command stdin stdout stderr tty container
  | _ => raise (AttributeError "execute")
  end.

(** *** The single-request operations, as one family *)

Inductive Op : Type :=
| OpExists (ensure : bool)
| OpCreate
| OpReload
| OpUpdate
| OpDelete
| OpExecute (command stdin stdout stderr tty container : json).

Definition run_op (op : Op) : M unit :=
  match op with
  | OpExists ensure => exists_ ensure;; mret tt
  | OpCreate => create
  | OpReload => reload
  | OpUpdate => update
  | OpDelete => delete
  | OpExecute c i o e t n => execute c i o e t n;; mret tt
  end.

(** The operations whose target is the singular resource. *)
Definition singular (op : Op) : bool :=
  match op with
  | OpCreate => false
  | _ => true
  end.

(** The name an instance was last confirmed under. *)
Definition snapshot_name (self : APIObject) : outcome json :=
  m ← getitem (_original_obj self) "metadata"; getitem m "name".

(** What an operation appends to the singular URL. *)
Definition op_url (op : Op) (url : string) : string :=
  match op with
  | OpExecute c i o e t n =>
      (url +:+ "/" +:+ "exec") +:+ "?" +:+ urlencode (execute_params c i o e t n)
  | _ => url
  end.

(** Where a request goes: everything in [kw] but its payload. *)
Definition target_of (kw : Kw)
  : option kwval * option kwval * option kwval * option kwval :=
  (kw !! "url", kw !! "base", kw !! "version", kw !! "namespace").

Definition targets (tr : list event)
  : list (Method * (option kwval * option kwval * option kwval * option kwval)) :=
  omap (fun e => match e with
                 | Call m kw => Some (m, target_of kw)
                 | Sleep _ => None
                 end) tr.

(** An instance whose attributes read [o], its document and snapshot
    being two dicts, before anything was sent. *)
Definition start (o : APIObject) (w : World) : St :=
  {| this := {| class_of := cls o; obj_ref := 0%nat; _original_obj_ref := 1%nat |};
     store := [obj o; _original_obj o]; api := w; trace := [] |}.

(** [APIObject(api, o)] for a dict [o] the caller has just made:
    [__init__] runs [set_obj] on it. *)
Definition construct (k : Kind) (o : json) (w : World) : St :=
  (set_obj 0%nat
     {| this := {| class_of := k; obj_ref := 0%nat; _original_obj_ref := 0%nat |};
        store := [o]; api := w; trace := [] |}).2.

(** The caller assigns into the dict it shares with the instance, after
    which that dict reads [d]. *)
Definition caller_sets (d : json) (st : St) : St := (store_obj d st).2.

(** What running [c] from [st] adds to the trace. *)
Definition issued {A} (c : M A) (st : St) : list event :=
  drop (length (trace st)) (trace (c st).2).

(** Document and snapshot are different dicts of the store. *)
Definition separate (st : St) : Prop :=
  obj_ref (this st) <> _original_obj_ref (this st) /\
  (obj_ref (this st) < length (store st))%nat /\
  (_original_obj_ref (this st) < length (store st))%nat.

(** Running [c] keeps document and snapshot in different dicts. *)
Definition preserves {A} (c : M A) : Prop :=
  forall st, separate st -> separate (c st).2.

(** *** The pieces of [api_kwargs], named for the statements below *)

(** The URL before sub-resource and query string are appended. *)
Definition base_url (self : APIObject) (collection : bool) : outcome string :=
  if collection then mret (endpoint (cls self))
  else n ← snapshot_name self; mret (endpoint (cls self) +:+ "/" +:+ py_str n).

Definition finish_url (url : string) (subcommand : option string)
    (query_params : option (list (string * json))) : string :=
  let url := match subcommand with
             | Some sub => if String.eqb sub "" then url else url +:+ "/" +:+ sub
             | None => url
             end in
  match query_params with
  | Some ((_ :: _) as q) => url +:+ "?" +:+ urlencode q
  | _ => url
  end.

(** The dictionary [api_kwargs] has built before [kw.update(kwargs)]. *)
Definition built (k : Kind) (url0 url : string) (ns : option json) : Kw :=
  <["url" := KStr url]>
    (match ns with
     | Some v => <["namespace" := KJson v]>
     | None => fun kw => kw
     end (<["version" := KStr (version k)]> (<["url" := KStr url0]> ∅))).

(** The one request an operation sends, when it gets as far as sending. *)
Definition op_request (op : Op) (s : APIObject) : outcome (Method * Kw) :=
  match op with
  | OpExists _ => kw ← api_kwargs s false None None ∅; mret (GET, kw)
  | OpCreate =>
      kw ← api_kwargs s true None None {[ "data" := KStr (json_dumps (obj s)) ]};
      mret (POST, kw)
  | OpReload => kw ← api_kwargs s false None None ∅; mret (GET, kw)
  | OpUpdate =>
      kw ← api_kwargs s false None None
             (<["headers" := KHeaders patch_headers]>
                {[ "data" := KStr (json_dumps
                             (JList (make_patch (_original_obj s) (obj s)))) ]});
      mret (PATCH, kw)
  | OpDelete => kw ← api_kwargs s false None None ∅; mret (DELETE, kw)
  | OpExecute c i o e t n =>
      match cls s with
      | Pod =>
          kw ← api_kwargs s false (Some "exec")
                 (Some (execute_params c i o e t n)) ∅;
          mret (GET, kw)
      | _ => Raise (AttributeError "execute")
      end
  end.

(** The state rule of create, reload and update: after a normal return
    the one request sent was answered with success and a decodable body,
    which is now what both document and snapshot read, in two dicts of
    their own; otherwise the instance and every dict are as they were. *)
Definition confirmed_or_untouched (c : M unit) (st : St) : Prop :=
  match (c st).1 with
  | Ok _ =>
      exists m kw r b,
        trace (c st).2 = trace st ++ [Call m kw] /\
        request m kw (api st) = (r, api (c st).2) /\
        ok r = true /\ json_body r = Some b /\
        self (c st).2 = {| cls := cls (self st); obj := b; _original_obj := b |} /\
        separate (c st).2
  | Raise _ | OutOfFuel =>
      this (c st).2 = this st /\ store (c st).2 = store st
  end.

(** The state after a call [ev] was answered with the body [b] and
    [set_obj] has run on it: [b] in a new dict as document, a copy of it
    in another as snapshot. *)
Definition confirmed (st : St) (b : json) (w' : World) (ev : event) : St :=
  {| this := {| class_of := class_of (this st);
                obj_ref := length (store st);
                _original_obj_ref := length (store st ++ [b]) |};
     store := (store st ++ [b]) ++ [deref (store st ++ [b]) (length (store st))];
     api := w';
     trace := trace st ++ [ev] |}.

(** The state after a call [ev] that left the instance alone. *)
Definition answered (st : St) (w' : World) (ev : event) : St :=
  {| this := this st; store := store st; api := w';
     trace := trace st ++ [ev] |}.

(** [x is None]. *)
Definition is_null (x : json) : bool :=
  match x with JNull => true | _ => false end.

(** The entry an option of [execute] contributes: none when it was left
    at [None]. *)
Definition supplied (k : string) (x v : json) : list (string * json) :=
  match x with
  | JNull => []
  | _ => [(k, v)]
  end.

(** The state after [time.sleep(1)]. *)
Definition answered_sleep (st : St) : St :=
  {| this := this st; store := store st; api := api st;
     trace := trace st ++ [Sleep 1] |}.

(** The extra keyword arguments [update] passes. *)
Definition update_kwargs (s : APIObject) : Kw :=
  <["headers" := KHeaders patch_headers]>
    {[ "data" := KStr (json_dumps (JList (make_patch (_original_obj s) (obj s)))) ]}.

(** The shape of a finished poll: a GET, then a pause of 1 and a GET
    for every further round. *)
Fixpoint polling (tr : list event) : bool :=
  match tr with
  | [Call GET _] => true
  | Call GET _ :: Sleep secs :: tr' => (secs =? 1) && polling tr'
  | _ => false
  end.

(** How many pauses a trace holds, and how many calls of one method. *)
Fixpoint sleeps (tr : list event) : nat :=
  match tr with
  | [] => 0
  | Sleep _ :: tr' => S (sleeps tr')
  | Call _ _ :: tr' => sleeps tr'
  end.

Definition is_method (m m' : Method) : bool :=
  match m, m' with
  | GET, GET | POST, POST | PATCH, PATCH | DELETE, DELETE => true
  | _, _ => false
  end.

Fixpoint calls (m : Method) (tr : list event) : nat :=
  match tr with
  | [] => 0
  | Call m' _ :: tr' => (if is_method m m' then 1 else 0) + calls m tr'
  | Sleep _ :: tr' => calls m tr'
  end.

(** [c] never runs out of fuel. *)
Definition finishes {A} (c : M A) : Prop :=
  forall st, (c st).1 <> OutOfFuel.

(** [c] raises from every state. *)
Definition always_raises {A} (c : M A) : Prop :=
  forall st, exists e, (c st).1 = Raise e.

(** [c] only ever appends to the trace. *)
Definition grows {A} (c : M A) : Prop :=
  forall st, exists tr, trace (c st).2 = trace st ++ tr.

(** A trace as read off the wire: method and URL of each call, and the
    pauses between them. *)
Inductive step : Type :=
| Sent (m : Method) (url : option kwval)
| Slept (secs : Z).

Definition view (tr : list event) : list step :=
  map (fun e => match e with
                | Call m kw => Sent m (kw !! "url")
                | Sleep n => Slept n
                end) tr.

End Objects.

(** ** Test doubles for the collaborators *)

(** A scripted transport: the world is the list of responses still to be
    served, whatever is asked; an exhausted script answers 500. *)
Definition scripted_request (m : Method) (kw : Kw) (w : list Response)
  : Response * list Response :=
  match w with
  | r :: w' => (r, w')
  | [] => (mkResponse 500 None "", [])
  end.

Definition scripted : Transport :=
  {| World := list Response; request := scripted_request |}.


Definition dquote : string := String (ascii_of_nat 34) EmptyString.

(** A compact serializer for documents whose strings need no escaping. *)
Fixpoint demo_dumps (v : json) : string :=
  match v with
  | JNull => "null"
  | JBool true => "true"
  | JBool false => "false"
  | JNum z => pretty z
  | JStr s => dquote +:+ s +:+ dquote
  | JList l =>
      "[" +:+
      (fix go (l : list json) : string :=
         match l with
         | [] => ""
         | x :: l' =>
             demo_dumps x +:+ match l' with [] => "" | _ => ", " +:+ go l' end
         end) l +:+ "]"
  | JDict d =>
      "{" +:+
      (fix go (d : list (string * json)) : string :=
         match d with
         | [] => ""
         | (k, x) :: d' =>
             dquote +:+ k +:+ dquote +:+ ": " +:+ demo_dumps x +:+
             match d' with [] => "" | _ => ", " +:+ go d' end
         end) d +:+ "}"
  end.

(** The coarsest correct edit script: nothing when the documents agree,
    otherwise one replacement of the whole document. *)
Definition demo_make_patch (old new : json) : list json :=
  if py_eq old new then []
  else [JDict [("op", JStr "replace"); ("path", JStr ""); ("value", new)]].

Definition hex_digit (n : nat) : ascii :=
  ascii_of_nat (if (n <? 10)%nat then 48 + n else 55 + n).

Definition unreserved (c : ascii) : bool :=
  let n := nat_of_ascii c in
  ((48 <=? n) && (n <=? 57) || (65 <=? n) && (n <=? 90) ||
   (97 <=? n) && (n <=? 122) ||
   (n =? 45) || (n =? 46) || (n =? 95) || (n =? 126))%nat.

(** Percent-encoding with [+] for a space. *)
Fixpoint demo_quote_plus (s : string) : string :=
  match s with
  | EmptyString => EmptyString
  | String c s' =>
      let n := nat_of_ascii c in
      (if unreserved c then String c EmptyString
       else if (n =? 32)%nat then "+"
       else String "%" (String (hex_digit (n / 16))
                          (String (hex_digit (n mod 16)) EmptyString)))
      +:+ demo_quote_plus s'
  end.

Definition demo_library : Library :=
  {| json_dumps := demo_dumps;
     make_patch := demo_make_patch;
     quote_plus := demo_quote_plus;
     py_repr := demo_dumps |}.

(** ** Documents and responses of the scenarios *)

Definition ok_body (b : json) : Response := mkResponse 200 (Some b) "".

Definition status_only (s : Z) : Response := mkResponse s None "".

Definition named (n : string) (spec : list (string * json)) : json :=
  JDict [("metadata", JDict [("name", JStr n)]); ("spec", JDict spec)].

Definition pod_p1 : APIObject := new Pod (named "p1" []).

(** The request every singular operation on [pod_p1] sends. *)
Definition pod_p1_kw : Kw :=
  ∅ ∪ built Pod "pods/p1" "pods/p1" (Some (JStr "default")).

(** A pod just constructed from the caller's dict, on a transport that
    will confirm it once. *)
Definition pod_p1_constructed : @St scripted :=
  @construct scripted Pod (named "p1" []) [ok_body (named "p1" [])].

(** A pod authored without a name. *)
Definition nameless_pod : APIObject := new Pod (JDict [("metadata", JDict [])]).

(** A node whose document happens to carry a namespace. *)
Definition node_n1 : APIObject :=
  new Node (JDict [("metadata",
                    JDict [("name", JStr "n1"); ("namespace", JStr "kube-system")])]).

Definition condition (type status : string) : json :=
  JDict [("type", JStr type); ("status", JStr status)].

(** A pod that is initialised and ready, with a stale second verdict. *)
Definition pod_conditions (cs : list json) : APIObject :=
  new Pod (JDict [("metadata", JDict [("name", JStr "p1")]);
                  ("status", JDict [("conditions", JList cs)])]).

(** A replicated resource called [web] with [n] desired replicas. *)
Definition web (n : Z) : json := named "web" [("replicas", JNum n)].

(** A job called [batch] with parallelism [n]. *)
Definition job_batch (n : Z) : json := named "batch" [("parallelism", JNum n)].

(** A pod document whose namespace is the empty string. *)
Definition pod_blank_namespace : APIObject :=
  new Pod (JDict [("metadata",
                   JDict [("name", JStr "p1"); ("namespace", JStr "")])]).

(** The transport of the scale scenario: the existence check and the
    update succeed, then the reloads report one replica and three. *)
Definition scale_script : list Response :=
  [status_only 200; ok_body (web 3); ok_body (web 1); ok_body (web 3)].

(** A transport on which the job is already at its target on the first
    reload. *)
Definition job_script : list Response :=
  [status_only 200; ok_body (job_batch 3); ok_body (job_batch 3)].


(** ** Dictionaries *)

Lemma assoc_set_eq k v d : assoc k (assoc_set k v d) = Some v.
Proof.
  induction d as [|[k' v'] d IH]; simpl.
  - by rewrite String.eqb_refl.
  - destruct (String.eqb k k') eqn:E; simpl; rewrite ?E, ?String.eqb_refl; auto.
Qed.

Lemma assoc_set_ne k k' v d : k <> k' -> assoc k' (assoc_set k v d) = assoc k' d.
Proof.
  intros Hne. induction d as [|[k0 v0] d IH]; simpl.
  - destruct (String.eqb k' k) eqn:E; [|done].
    apply String.eqb_eq in E. congruence.
  - destruct (String.eqb k k0) eqn:E; simpl.
    + apply String.eqb_eq in E. subst k0.
      destruct (String.eqb k' k) eqn:E'; [|done].
      apply String.eqb_eq in E'. congruence.
    + by rewrite IH.
Qed.

Lemma assoc_set_not_nil k v d : assoc_set k v d <> [].
Proof. destruct d as [|[k' v'] d]; simpl; [done|]. by destruct (String.eqb k k'). Qed.

Section Theory.
Context {T : Transport} {L : Library}.

(** ** [api_kwargs] *)

Lemma api_kwargs_eq self c sub q kwargs :
  api_kwargs self c sub q kwargs =
  (u ← base_url self c;
   ns ← namespace self;
   mret (kwargs ∪ built (cls self) u (finish_url u sub q) ns)).
Proof.
  unfold api_kwargs, base_url, snapshot_name, built, finish_url.
  unfold mbind, outcome_bind, mret, outcome_ret. simpl.
  destruct c; simpl.
  - destruct (namespace self) as [[ns|]| |]; reflexivity.
  - destruct (getitem (_original_obj self) "metadata") as [m| |]; simpl; try done.
    destruct (getitem m "name") as [n| |]; simpl; try done.
    destruct (namespace self) as [[ns|]| |]; reflexivity.
Qed.

Lemma built_url k u0 u ns : built k u0 u ns !! "url" = Some (KStr u).
Proof. unfold built. by rewrite lookup_insert_eq. Qed.

Lemma built_namespace k u0 u ns : built k u0 u ns !! "namespace" = KJson <$> ns.
Proof. unfold built. destruct ns; by simplify_map_eq. Qed.

Lemma built_version k u0 u ns :
  built k u0 u ns !! "version" = Some (KStr (version k)).
Proof. unfold built. destruct ns; by simplify_map_eq. Qed.

Lemma built_base k u0 u ns : built k u0 u ns !! "base" = None.
Proof. unfold built. destruct ns; by simplify_map_eq. Qed.

(** ** What each operation sends *)

#[local] Arguments self : simpl never.

Ltac unfold_M :=
  unfold run_op, execute, Pod_execute, exists_, create, reload, update, delete,
    raise_for_status, response_json, set_obj, set_attr_obj,
    set_attr_original_obj, deepcopy, alloc, store_obj, get_self, lift, raise,
    api_call, op_request;
  unfold mbind, mret, M_bind, M_ret, outcome_bind, outcome_ret; simpl.

Ltac step_M :=
  repeat (simpl in *; match goal with
          | |- context [request ?m ?kw ?w] =>
              let r := fresh "r" in let w' := fresh "w'" in
              let E := fresh "Hreq" in
              destruct (request m kw w) as [r w'] eqn:E
          | |- context [ok ?r] => destruct (ok r) eqn:?
          | |- context [json_body ?r] => destruct (json_body r) eqn:?
          | |- context [status_code ?r =? ?n] =>
              destruct (status_code r =? n) eqn:?
          | |- context [name ?s] => destruct (name s) eqn:?
          | |- context [if ?b then _ else _] => is_var b; destruct b
          end); simpl in *.

(** ** The store *)

Lemma deref_snoc h v : deref (h ++ [v]) (length h) = v.
Proof.
  unfold deref. rewrite lookup_app_r by lia.
  by replace (length h - length h)%nat with 0%nat by lia.
Qed.

Lemma deref_app_l h h' l : (l < length h)%nat -> deref (h ++ h') l = deref h l.
Proof. intros Hl. unfold deref. by rewrite lookup_app_l. Qed.

Lemma deref_insert_eq h l v : (l < length h)%nat -> deref (<[l := v]> h) l = v.
Proof. intros Hl. unfold deref. by rewrite list_lookup_insert_eq. Qed.

Lemma deref_insert_ne h l l' v : l <> l' -> deref (<[l := v]> h) l' = deref h l'.
Proof. intros Hl. unfold deref. by rewrite list_lookup_insert_ne. Qed.

(** A fresh dict holding a copy: both read the same, each in a cell of
    its own. *)
Lemma self_after_set_obj k h v w tr :
  self {| this := {| class_of := k; obj_ref := length h;
                     _original_obj_ref := length (h ++ [v]) |};
          store := (h ++ [v]) ++ [deref (h ++ [v]) (length h)];
          api := w; trace := tr |} =
  {| cls := k; obj := v; _original_obj := v |}.
Proof.
  unfold self. simpl. f_equal.
  - rewrite deref_app_l by (rewrite length_app; simpl; lia).
    apply deref_snoc.
  - by rewrite !deref_snoc.
Qed.

Lemma self_cells s w tr :
  self {| this := {| class_of := cls s; obj_ref := 0%nat;
                     _original_obj_ref := 1%nat |};
          store := [obj s; _original_obj s]; api := w; trace := tr |} = s.
Proof. by destruct s. Qed.

Lemma self_start s w : self (start s w) = s.
Proof. apply self_cells. Qed.

Lemma separate_start s w : separate (start s w).
Proof. unfold separate. simpl. lia. Qed.

Lemma construct_start k o w : construct k o w = start (new k o) w.
Proof. reflexivity. Qed.

Lemma run_op_trace op st :
  trace (run_op op st).2 =
  trace st ++ match op_request op (self st) with
              | Ok (m, kw) => [Call m kw]
              | _ => []
              end.
Proof.
  destruct op; unfold_M.
  all: change (cls (self st)) with (class_of (this st)).
  all: try (destruct (class_of (this st)); simpl; try by rewrite app_nil_r).
  all: match goal with
       | |- context [api_kwargs ?s ?c ?sub ?q ?kws] =>
           destruct (api_kwargs s c sub q kws) as [kw| |]; simpl;
           try by rewrite app_nil_r
       end.
  all: step_M; simplify_eq; done.
Qed.

Lemma execute_params_not_nil c i o e t n : execute_params c i o e t n <> [].
Proof.
  unfold execute_params.
  destruct n; [destruct t; [destruct e; [destruct o; [destruct i|..]|..]|..]|..];
    apply assoc_set_not_nil.
Qed.

Lemma finish_url_exec u q :
  q <> [] ->
  finish_url u (Some "exec") (Some q) = (u +:+ "/" +:+ "exec") +:+ "?" +:+ urlencode q.
Proof. intros Hq. destruct q; [done|reflexivity]. Qed.

Lemma union_built_target (kwargs : Kw) k u0 u ns :
  kwargs !! "url" = None -> kwargs !! "base" = None ->
  kwargs !! "version" = None -> kwargs !! "namespace" = None ->
  target_of (kwargs ∪ built k u0 u ns) =
  (Some (KStr u), None, Some (KStr (version k)), KJson <$> ns).
Proof.
  intros H1 H2 H3 H4. unfold target_of.
  rewrite (lookup_union_r kwargs _ "url"), (lookup_union_r kwargs _ "base"),
    (lookup_union_r kwargs _ "version"), (lookup_union_r kwargs _ "namespace")
    by assumption.
  by rewrite built_url, built_base, built_version, built_namespace.
Qed.

(** Where the request of an operation goes, in terms of the instance. *)
Lemma op_request_target op s m kw :
  op_request op s = Ok (m, kw) ->
  exists u ns,
    base_url s (negb (singular op)) = Ok u /\ namespace s = Ok ns /\
    target_of kw =
    (Some (KStr (op_url op u)), None, Some (KStr (version (cls s))), KJson <$> ns).
Proof.
  destruct op as [ens| | | | |c i o e t n]; cbn [op_request singular negb op_url].
  6: destruct (cls s) eqn:Hcls; try discriminate.
  all: rewrite api_kwargs_eq.
  6: rewrite Hcls.
  all: unfold mbind, outcome_bind, mret, outcome_ret.
  all: destruct (base_url s _) as [u| |]; try discriminate.
  all: destruct (namespace s) as [ns| |]; try discriminate.
  all: intros [= <- <-]; exists u, ns; split; [done|split; [done|]].
  6: pose proof (execute_params_not_nil c i o e t n) as Hne;
     destruct (execute_params c i o e t n); [done|].
  all: apply union_built_target; by simplify_map_eq.
Qed.

Lemma run_op_calls op s w m kw :
  Call m kw ∈ trace (run_op op (start s w)).2 -> op_request op s = Ok (m, kw).
Proof.
  rewrite run_op_trace, self_start. simpl.
  destruct (op_request op s) as [[m' kw']| |]; simpl.
  - intros H%list_elem_of_singleton. congruence.
  - by intros ?%elem_of_nil.
  - by intros ?%elem_of_nil.
Qed.

(** ** The namespace accessor *)

Lemma namespace_fallback s md :
  namespaced (cls s) = true ->
  getitem (obj s) "metadata" = Ok (JDict md) ->
  (forall v, assoc "namespace" md = Some v -> truthy v = false) ->
  namespace s = Ok (Some DEFAULT_NAMESPACE).
Proof.
  intros Hn Hm Hf. unfold namespace. rewrite Hn, Hm.
  unfold mbind, outcome_bind; simpl.
  destruct (assoc "namespace" md) as [v|] eqn:Hv; simpl; [|done].
  by rewrite (Hf v eq_refl).
Qed.

Lemma namespace_truthy s ns :
  namespaced (cls s) = true -> namespace s = Ok ns ->
  exists v, ns = Some v /\ truthy v = true.
Proof.
  intros Hn. unfold namespace. rewrite Hn.
  unfold mbind, outcome_bind, mret, outcome_ret.
  destruct (getitem (obj s) "metadata") as [m| |]; try discriminate.
  destruct m as [| | | | |md]; try discriminate. simpl.
  destruct (assoc "namespace" md) as [v|] eqn:Hv; simpl.
  - destruct (truthy v) eqn:Ht; intros [= <-]; eauto.
  - intros [= <-]. eauto.
Qed.

Lemma run_op_namespace op s w m kw :
  Call m kw ∈ trace (run_op op (start s w)).2 ->
  exists ns, namespace s = Ok ns /\ kw !! "namespace" = KJson <$> ns.
Proof.
  intros Hc%run_op_calls.
  destruct (op_request_target _ _ _ _ Hc) as (u & ns & _ & Hns & Ht).
  exists ns. split; [done|]. unfold target_of in Ht. congruence.
Qed.

(** Renaming the document leaves its namespace alone. *)
Lemma namespace_set_name s n d :
  setitem2 (obj s) "metadata" "name" n = Ok d ->
  namespace (with_obj s d) = namespace s.
Proof.
  unfold setitem2, namespace. simpl.
  destruct (obj s) as [| | | | |top]; try discriminate. simpl.
  destruct (assoc "metadata" top) as [inner|] eqn:Hi; try discriminate.
  destruct inner as [| | | | |md]; try discriminate. simpl.
  intros [= <-]. destruct (namespaced (cls s)); [|done]. simpl.
  rewrite assoc_set_eq. unfold mbind, outcome_bind. simpl.
  by rewrite assoc_set_ne.
Qed.

Lemma run_op_issued op st :
  issued (run_op op) st =
  match op_request op (self st) with
  | Ok (m, kw) => [Call m kw]
  | _ => []
  end.
Proof. unfold issued. by rewrite run_op_trace, drop_app_length. Qed.

Lemma issued_calls op st m kw :
  Call m kw ∈ issued (run_op op) st -> op_request op (self st) = Ok (m, kw).
Proof.
  rewrite run_op_issued.
  destruct (op_request op (self st)) as [[m' kw']| |]; simpl.
  - intros H%list_elem_of_singleton. congruence.
  - by intros ?%elem_of_nil.
  - by intros ?%elem_of_nil.
Qed.

Lemma update_issued_targets st :
  targets (issued update st) =
  match base_url (self st) false, namespace (self st) with
  | Ok u, Ok ns =>
      [(PATCH,
        (Some (KStr u), None, Some (KStr (version (cls (self st)))), KJson <$> ns))]
  | _, _ => []
  end.
Proof.
  change update with (run_op OpUpdate). rewrite run_op_issued.
  cbn [op_request]. rewrite api_kwargs_eq.
  destruct (base_url (self st) false) as [u| |]; [|done..].
  destruct (namespace (self st)) as [ns| |]; [|done..].
  unfold mbind, outcome_bind, mret, outcome_ret.
  cbn [targets omap list_omap]. 
  rewrite union_built_target; [done|by simplify_map_eq..].
Qed.

(** A write through the caller's reference reaches the document and,
    the two dicts being separate, not the snapshot. *)
Lemma self_caller_sets d st :
  separate st -> self (caller_sets d st) = with_obj (self st) d.
Proof.
  intros (Hne & Ho & Hs). unfold self, caller_sets, store_obj, with_obj. simpl.
  by rewrite deref_insert_eq, deref_insert_ne.
Qed.

(** C1.  Every operation on the singular resource (exists, reload,
    update, delete, execute) addresses the name held in the snapshot: the
    URL of whatever it sends is the endpoint, a slash and the snapshot's
    [metadata.name] (followed by the sub-resource and query string for
    execute).  Whatever the caller writes into the document dict it
    shares with the instance, that URL stays the same; and renaming the
    document before [update] changes nothing in where the PATCH goes. *)
Theorem request_name_from_snapshot (op : Op) (st : St) :
  singular op = true -> separate st ->
  (forall m kw, Call m kw ∈ issued (run_op op) st ->
     exists n, snapshot_name (self st) = Ok n /\
       kw !! "url" =
       Some (KStr (op_url op (endpoint (cls (self st)) +:+ "/" +:+ py_str n)))) /\
  (forall d m kw m' kw',
     Call m kw ∈ issued (run_op op) st ->
     Call m' kw' ∈ issued (run_op op) (caller_sets d st) ->
     kw' !! "url" = kw !! "url") /\
  (forall n d, setitem2 (obj (self st)) "metadata" "name" n = Ok d ->
     targets (issued update (caller_sets d st)) = targets (issued update st)).
Proof.
  intros Hs Hsep.
  assert (Hurl : forall st' m kw,
             _original_obj (self st') = _original_obj (self st) ->
             cls (self st') = cls (self st) ->
             Call m kw ∈ issued (run_op op) st' ->
             exists n, snapshot_name (self st) = Ok n /\
               kw !! "url" =
               Some (KStr (op_url op
                             (endpoint (cls (self st)) +:+ "/" +:+ py_str n)))).
  { intros st' m kw Ho Hc Hin%issued_calls.
    destruct (op_request_target _ _ _ _ Hin) as (u & ns & Hu & _ & Ht).
    rewrite Hs in Hu. unfold base_url, snapshot_name in Hu. cbn [negb] in Hu.
    rewrite Ho, Hc in Hu. unfold snapshot_name.
    destruct (getitem (_original_obj (self st)) "metadata" ≫= _) as [n| |];
      try discriminate.
    exists n. split; [done|]. injection Hu as <-.
    unfold target_of in Ht.
    change (cls (self st)) with (class_of (this st)). congruence. }
  split; [|split].
  - intros m kw. by apply Hurl.
  - intros d m kw m' kw' H1 H2.
    destruct (Hurl st m kw eq_refl eq_refl H1) as (n & Hn & ->).
    destruct (Hurl (caller_sets d st) m' kw') as (n' & Hn' & ->);
      [by rewrite self_caller_sets..|done|]. congruence.
  - intros n d Hd. rewrite !update_issued_targets, self_caller_sets by done.
    by rewrite (namespace_set_name _ _ _ Hd).
Qed.

(** C9.  A namespaced instance whose document has a [metadata] mapping
    without a [namespace] entry reports the namespace ["default"], and
    every request it issues carries ["default"] as its namespace. *)
Theorem namespace_default_when_absent (s : APIObject) (md : list (string * json)) :
  namespaced (cls s) = true ->
  getitem (obj s) "metadata" = Ok (JDict md) ->
  assoc "namespace" md = None ->
  namespace s = Ok (Some (JStr "default")) /\
  (forall op w m kw, Call m kw ∈ trace (run_op op (start s w)).2 ->
     kw !! "namespace" = Some (KJson (JStr "default"))).
Proof.
  intros Hn Hm Ha.
  assert (Hns : namespace s = Ok (Some (JStr "default"))).
  { apply (namespace_fallback s md Hn Hm). intros v Hv. congruence. }
  split; [done|].
  intros op w m kw (ns & Hns' & ->)%run_op_namespace.
  rewrite Hns in Hns'. by injection Hns' as <-.
Qed.

(** C10.  On a namespaced instance the accessor answers ["default"] also
    when [metadata.namespace] is present but falsy (the empty string,
    [None], ...); whatever it answers is truthy, so no request of the
    instance carries an empty namespace. *)
Theorem namespace_never_falsy (s : APIObject) :
  namespaced (cls s) = true ->
  (forall md v, getitem (obj s) "metadata" = Ok (JDict md) ->
     assoc "namespace" md = Some v -> truthy v = false ->
     namespace s = Ok (Some (JStr "default"))) /\
  (forall ns, namespace s = Ok ns -> exists v, ns = Some v /\ truthy v = true) /\
  (forall op w m kw, Call m kw ∈ trace (run_op op (start s w)).2 ->
     exists v, kw !! "namespace" = Some (KJson v) /\ truthy v = true /\
               v <> JStr "").
Proof.
  intros Hn. split; [|split].
  - intros md v Hm Hv Hf. apply (namespace_fallback s md Hn Hm).
    intros v' Hv'. congruence.
  - intros ns. by apply namespace_truthy.
  - intros op w m kw (ns & Hns & ->)%run_op_namespace.
    destruct (namespace_truthy s ns Hn Hns) as (v & -> & Ht).
    exists v. split; [done|]. split; [done|]. by intros ->.
Qed.

(** ** The CRUD operations *)

Lemma ok_error r : ok r = false <-> 400 <= status_code r < 600.
Proof. unfold ok. rewrite negb_false_iff, andb_true_iff. lia. Qed.

Lemma api_kwargs_singular_url s sub q kwargs kw :
  api_kwargs s false sub q kwargs = Ok kw -> kwargs !! "url" = None ->
  exists n, snapshot_name s = Ok n /\
    kw !! "url" =
    Some (KStr (finish_url (endpoint (cls s) +:+ "/" +:+ py_str n) sub q)).
Proof.
  rewrite api_kwargs_eq. unfold base_url.
  unfold mbind, outcome_bind, mret, outcome_ret.
  destruct (snapshot_name s) as [n| |]; try discriminate.
  destruct (namespace s) as [ns| |]; try discriminate.
  intros [= <-] Hk. exists n. split; [done|].
  by rewrite lookup_union_r, built_url.
Qed.

(** C3.  create, reload and update replace document and snapshot only
    on a normal return, and then both at once by the decoded body of a
    successful response; when the call raises (a transport error, or a
    body that does not decode) the instance is exactly as before. *)
Theorem failed_call_keeps_state (st : St) :
  confirmed_or_untouched create st /\
  confirmed_or_untouched reload st /\
  confirmed_or_untouched update st.
Proof.
  unfold confirmed_or_untouched. repeat split; unfold_M.
  all: match goal with
       | |- context [api_kwargs ?s ?c ?sub ?q ?kws] =>
           destruct (api_kwargs s c sub q kws) as [kw| |]; simpl; try done
       end.
  all: step_M; try done.
  all: eexists _, kw, r, _; repeat split; try done.
  all: try apply self_after_set_obj.
  all: simpl; rewrite ?length_app; simpl; lia.
Qed.

(** C4, as the code has it.  When the request can be built, [exists]
    sends one GET to the singular target and leaves the instance alone;
    it returns true on 200, returns false on 404 when [ensure] is unset,
    raises [ObjectDoesNotExist] on 404 when [ensure] is set (the message
    names the document's [metadata.name]), raises the transport error on
    every other error status (400 to 599) whatever [ensure] is, and
    returns true on every status that is not an error. *)
Theorem exists_by_status (ensure : bool) (s : APIObject) (w : World) (kw : Kw) :
  api_kwargs s false None None ∅ = Ok kw ->
  let r := (request GET kw w).1 in
  let res := exists_ ensure (start s w) in
  trace res.2 = [Call GET kw] /\ self res.2 = s /\
  (exists n, snapshot_name s = Ok n /\
     kw !! "url" = Some (KStr (endpoint (cls s) +:+ "/" +:+ py_str n))) /\
  (status_code r = 200 -> res.1 = Ok true) /\
  (status_code r = 404 -> ensure = false -> res.1 = Ok false) /\
  (status_code r = 404 -> ensure = true -> forall n, name s = Ok n ->
     res.1 = Raise (ObjectDoesNotExist (py_str n +:+ " does not exist."))) /\
  (400 <= status_code r < 600 -> status_code r <> 404 ->
     res.1 = Raise (HTTPError (status_code r))) /\
  (~ 400 <= status_code r < 600 -> res.1 = Ok true).
Proof.
  intros Hkw r res.
  assert (Hurl := api_kwargs_singular_url _ _ _ _ _ Hkw eq_refl).
  subst r res. unfold_M. rewrite !self_start, Hkw. simpl.
  destruct (request GET kw w) as [r w'] eqn:Hreq. simpl.
  rewrite ?self_cells.
  pose proof (ok_error r) as Hok.
  destruct (ok r) eqn:Ho;
    destruct (Z.eqb_spec (status_code r) 200) as [E2|E2];
    destruct (Z.eqb_spec (status_code r) 404) as [E4|E4]; simpl.
  all: try (exfalso; destruct Hok as [Hok _]; specialize (Hok eq_refl); lia).
  all: try (exfalso; lia).
  all: destruct ensure; simpl.
  all: rewrite ?self_cells; try destruct (name s) as [n'| |] eqn:Hn; simpl.
  all: repeat split; try done; try lia.
  all: try (intros; exfalso; destruct Hok as [_ Hok]; by specialize (Hok ltac:(lia))).
  all: try (intros; congruence).
  all: by destruct s.
Qed.

(** C5.  [delete] never touches the instance or any dict, whatever
    happens, so document and snapshot stay as they were.
    When the request can be built it sends one DELETE to the singular
    target; a 404 answer completes normally, any other error status
    raises the transport error, and a status that is not an error
    completes normally. *)
Theorem delete_by_status (s : APIObject) (w : World) (kw : Kw) :
  api_kwargs s false None None ∅ = Ok kw ->
  let r := (request DELETE kw w).1 in
  let res := delete (start s w) in
  (forall st, this (delete st).2 = this st /\ store (delete st).2 = store st) /\
  trace res.2 = [Call DELETE kw] /\
  (exists n, snapshot_name s = Ok n /\
     kw !! "url" = Some (KStr (endpoint (cls s) +:+ "/" +:+ py_str n))) /\
  (status_code r = 404 -> res.1 = Ok tt) /\
  (400 <= status_code r < 600 -> status_code r <> 404 ->
     res.1 = Raise (HTTPError (status_code r))) /\
  (~ 400 <= status_code r < 600 -> res.1 = Ok tt).
Proof.
  intros Hkw r res.
  assert (Hurl := api_kwargs_singular_url _ _ _ _ _ Hkw eq_refl).
  split.
  { intros st. unfold_M.
    destruct (api_kwargs (self st) false None None ∅); simpl; try done.
    by step_M. }
  subst r res. unfold_M. rewrite !self_start, Hkw. simpl.
  destruct (request DELETE kw w) as [r w'] eqn:Hreq. simpl.
  pose proof (ok_error r) as Hok.
  destruct (ok r) eqn:Ho;
    destruct (Z.eqb_spec (status_code r) 404) as [E4|E4]; simpl.
  all: repeat split; try done; try lia.
  all: try (intros; exfalso; destruct Hok as [_ Hok]; by specialize (Hok ltac:(lia))).
  all: try (intros; exfalso; destruct Hok as [Hok _]; specialize (Hok eq_refl); lia).
Qed.

(** C6.  Whenever the request can be built, [update] sends exactly one
    PATCH to the singular target, with the JSON-patch content type and
    the freshly computed edit script between snapshot and document as
    body, whether or not that script is empty; on a successful answer
    with a decodable body, document and snapshot both become that body,
    and otherwise the call raises and the instance is untouched. *)
Theorem update_sends_patch (s : APIObject) (w : World) (n : json)
    (ns : option json) :
  snapshot_name s = Ok n -> namespace s = Ok ns ->
  let patch := make_patch (_original_obj s) (obj s) in
  let res := update (start s w) in
  exists kw,
    trace res.2 = [Call PATCH kw] /\
    kw !! "url" = Some (KStr (endpoint (cls s) +:+ "/" +:+ py_str n)) /\
    kw !! "headers" =
      Some (KHeaders [("Content-Type", "application/json-patch+json")]) /\
    kw !! "data" = Some (KStr (json_dumps (JList patch))) /\
    let r := (request PATCH kw w).1 in
    match ok r, json_body r with
    | true, Some b =>
        res.1 = Ok tt /\
        self res.2 = {| cls := cls s; obj := b; _original_obj := b |}
    | true, None => res.1 = Raise ValueError /\ self res.2 = s
    | false, _ => res.1 = Raise (HTTPError (status_code r)) /\ self res.2 = s
    end.
Proof.
  intros Hn Hns patch res. subst patch res.
  unfold_M. rewrite !self_start, api_kwargs_eq. unfold base_url. rewrite Hn, Hns.
  unfold mbind, outcome_bind, mret, outcome_ret. simpl.
  eexists. split.
  { destruct (request PATCH _ w) as [r w'] eqn:Hreq. by step_M. }
  split; [by rewrite lookup_union_r, built_url by by simplify_map_eq|].
  split; [by simplify_map_eq|]. split; [by simplify_map_eq|].
  destruct (request PATCH _ w) as [r w'] eqn:Hreq. simpl.
  step_M; (split; [done|]); try reflexivity; by destruct s.
Qed.

(** ** Remote execution *)

Lemma assoc_skip (x : json) k v d k' :
  k <> k' ->
  assoc k' (match x with JNull => d | _ => assoc_set k v d end) = assoc k' d.
Proof. intros Hne. destruct x; by rewrite ?assoc_set_ne. Qed.

Lemma assoc_hit (x : json) k v d :
  x <> JNull ->
  assoc k (match x with JNull => d | _ => assoc_set k v d end) = Some v.
Proof. intros Hx. destruct x; by rewrite ?assoc_set_eq. Qed.

(** What [execute] puts under each key: the command and the flags
    [stdin], [stdout] and [stderr] as strings, the latter lower-cased;
    [tty] and [container] as they were passed. *)
Lemma execute_params_entries c i o e t n :
  let q := execute_params c i o e t n in
  assoc "command" q = Some (JStr (py_str c)) /\
  (i <> JNull -> assoc "stdin" q = Some (JStr (lower (py_str i)))) /\
  (o <> JNull -> assoc "stdout" q = Some (JStr (lower (py_str o)))) /\
  (e <> JNull -> assoc "stderr" q = Some (JStr (lower (py_str e)))) /\
  (t <> JNull -> assoc "tty" q = Some t) /\
  (n <> JNull -> assoc "container" q = Some n).
Proof.
  unfold execute_params. repeat split; intros.
  - by rewrite !assoc_skip.
  - rewrite !assoc_skip by done. by apply assoc_hit.
  - rewrite !assoc_skip by done. by apply assoc_hit.
  - rewrite !assoc_skip by done. by apply assoc_hit.
  - rewrite !assoc_skip by done. by apply assoc_hit.
  - by apply assoc_hit.
Qed.

(** X18.  On a pod, [execute] sends one GET to the [exec] sub-resource of
    the singular target with the encoded parameters, leaves the instance
    alone, returns the body text of a successful answer and raises on an
    error status. *)
Lemma Pod_execute_spec c i o e t n (s : APIObject) (w : World) (kw : Kw) :
  cls s = Pod ->
  api_kwargs s false (Some "exec") (Some (execute_params c i o e t n)) ∅ = Ok kw ->
  let r := (request GET kw w).1 in
  let res := execute c i o e t n (start s w) in
  trace res.2 = [Call GET kw] /\ self res.2 = s /\
  (exists nm, snapshot_name s = Ok nm /\
     kw !! "url" =
     Some (KStr ((("pods" +:+ "/" +:+ py_str nm) +:+ "/" +:+ "exec") +:+ "?" +:+
                 urlencode (execute_params c i o e t n)))) /\
  res.1 = if ok r then Ok (text r) else Raise (HTTPError (status_code r)).
Proof.
  intros Hc Hkw r res.
  destruct (api_kwargs_singular_url _ _ _ _ _ Hkw eq_refl) as (nm & Hnm & Hurl).
  rewrite finish_url_exec in Hurl by apply execute_params_not_nil.
  rewrite Hc in Hurl.
  subst r res. unfold_M. rewrite ?self_start, Hc. unfold_M.
  rewrite ?self_start, Hkw. simpl.
  destruct (request GET kw w) as [r w'] eqn:Hreq. simpl.
  destruct (ok r); simpl; repeat split; eauto; by destruct s.
Qed.

(** ** Document and snapshot never share a dict *)

Lemma preserves_bind {A B} (c : M A) (f : A -> M B) :
  preserves c -> (forall a, preserves (f a)) -> preserves (c ≫= f).
Proof.
  intros Hc Hf st Hst. unfold mbind, M_bind.
  specialize (Hc st Hst). destruct (c st) as [[a|e|] st']; simpl in *; auto.
  by apply Hf.
Qed.

Lemma preserves_ret {A} (a : A) : preserves (mret a).
Proof. by intros st. Qed.

Lemma preserves_raise {A} e : preserves (raise (A := A) e).
Proof. by intros st. Qed.

Lemma preserves_out_of_fuel {A} : preserves (out_of_fuel (A := A)).
Proof. by intros st. Qed.

Lemma preserves_lift {A} (c : outcome A) : preserves (lift c).
Proof. by intros st. Qed.

Lemma preserves_get_self : preserves get_self.
Proof. by intros st. Qed.

Lemma preserves_api_call m kw : preserves (api_call m kw).
Proof. intros st Hst. unfold api_call. by destruct (request m kw (api st)). Qed.

Lemma preserves_sleep n : preserves (sleep n).
Proof. by intros st. Qed.

Lemma preserves_store_obj d : preserves (store_obj d).
Proof.
  intros st (Hne & Ho & Hs). unfold separate, store_obj. simpl.
  by rewrite length_insert.
Qed.

Lemma preserves_raise_for_status r : preserves (raise_for_status r).
Proof. unfold raise_for_status. intros st Hst. by destruct (ok r). Qed.

(** [set_obj] on a dict just decoded puts document and snapshot in two
    new cells, whatever the instance held before. *)
Lemma preserves_set_obj_json r : preserves (response_json r ≫= set_obj).
Proof.
  intros st Hst. unfold_M. destruct (json_body r); simpl; [|done].
  unfold separate. simpl. rewrite !length_app. simpl. lia.
Qed.

Create HintDb preserves.
#[local] Hint Resolve preserves_ret preserves_raise preserves_out_of_fuel
  preserves_lift preserves_get_self preserves_api_call preserves_sleep
  preserves_store_obj preserves_raise_for_status preserves_set_obj_json
  : preserves.

Ltac preserves_step :=
  first
    [ apply preserves_set_obj_json
    | apply preserves_bind; [|intros ?]
    | match goal with
      | |- preserves (if ?b then _ else _) => destruct b
      | |- preserves (match ?x with _ => _ end) => destruct x
      end
    | solve [auto with preserves] ].

Lemma preserves_exists ensure : preserves (exists_ ensure).
Proof. unfold exists_. repeat preserves_step. Qed.

Lemma preserves_create : preserves create.
Proof. unfold create. repeat preserves_step. Qed.

Lemma preserves_reload : preserves reload.
Proof. unfold reload. repeat preserves_step. Qed.

Lemma preserves_update : preserves update.
Proof. unfold update. repeat preserves_step. Qed.

Lemma preserves_delete : preserves delete.
Proof. unfold delete. repeat preserves_step. Qed.

Lemma preserves_execute c i o e t n : preserves (execute c i o e t n).
Proof. unfold execute, Pod_execute. repeat preserves_step. Qed.

#[local] Hint Resolve preserves_exists preserves_create preserves_reload
  preserves_update preserves_delete preserves_execute : preserves.

Lemma preserves_run_op op : preserves (run_op op).
Proof. destruct op; simpl; repeat preserves_step. Qed.

Lemma preserves_ReplicationController_scale_loop fuel r :
  preserves (ReplicationController_scale_loop fuel r).
Proof. induction fuel as [|fuel IH]; simpl; repeat preserves_step. Qed.

Lemma preserves_Job_scale_loop fuel p : preserves (Job_scale_loop fuel p).
Proof. induction fuel as [|fuel IH]; simpl; repeat preserves_step. Qed.

#[local] Hint Resolve preserves_ReplicationController_scale_loop
  preserves_Job_scale_loop : preserves.

(** Every state an instance reaches from its construction keeps the
    snapshot in a dict of its own. *)
Lemma preserves_scale fuel r : preserves (scale fuel r).
Proof.
  unfold scale, ReplicationController_scale, Job_scale, set_replicas.
  repeat preserves_step.
Qed.

(** ** Scaling *)

Lemma M_bind_Ok {A B} (c : M A) (f : A -> M B) st b :
  ((c ≫= f) st).1 = Ok b ->
  exists a st', c st = (Ok a, st') /\ (f a st').1 = Ok b.
Proof.
  unfold mbind, M_bind.
  destruct (c st) as [[a|e|] st']; simpl; eauto; discriminate.
Qed.

Lemma Job_scale_loop_never_returns fuel p st :
  (Job_scale_loop fuel p st).1 <> Ok tt.
Proof.
  destruct fuel; simpl; [discriminate|].
  intros (? & ? & _ & H)%M_bind_Ok.
  apply M_bind_Ok in H as (? & ? & _ & H).
  apply M_bind_Ok in H as (? & ? & H & _). discriminate H.
Qed.

(** Whatever the transport answers, [Job.scale] has no normal return. *)
Lemma Job_scale_never_returns fuel replicas_ st :
  (Job_scale fuel replicas_ st).1 <> Ok tt.
Proof.
  unfold Job_scale.
  intros (? & ? & _ & H)%M_bind_Ok.
  apply M_bind_Ok in H as (? & ? & _ & H).
  apply M_bind_Ok in H as (? & ? & _ & H).
  apply M_bind_Ok in H as (? & ? & _ & H).
  apply M_bind_Ok in H as (? & ? & _ & H).
  apply M_bind_Ok in H as (? & ? & _ & H).
  by apply Job_scale_loop_never_returns in H.
Qed.

(** * Further properties of the module *)

(** ** Targets and keyword arguments *)

(** X1.  [create] never reads the snapshot's name: whenever the
    namespace accessor answers, it sends exactly one POST to the bare
    collection endpoint with [json.dumps] of the document as data and no
    headers of its own; a successful answer with a decodable body becomes
    both document and snapshot, and any other answer raises and leaves
    the instance as it was. *)
Theorem create_posts_to_collection (s : APIObject) (w : World)
    (ns : option json) :
  namespace s = Ok ns ->
  let res := create (start s w) in
  exists kw,
    trace res.2 = [Call POST kw] /\
    kw !! "url" = Some (KStr (endpoint (cls s))) /\
    kw !! "data" = Some (KStr (json_dumps (obj s))) /\
    kw !! "headers" = None /\
    let r := (request POST kw w).1 in
    match ok r, json_body r with
    | true, Some b =>
        res.1 = Ok tt /\
        self res.2 = {| cls := cls s; obj := b; _original_obj := b |}
    | true, None => res.1 = Raise ValueError /\ self res.2 = s
    | false, _ => res.1 = Raise (HTTPError (status_code r)) /\ self res.2 = s
    end.
Proof.
  intros Hns res. subst res.
  unfold_M. rewrite !self_start, api_kwargs_eq. unfold base_url. rewrite Hns.
  unfold mbind, outcome_bind, mret, outcome_ret. simpl.
  eexists. split.
  { destruct (request POST _ w) as [r w'] eqn:Hreq. by step_M. }
  split; [by rewrite lookup_union_r, built_url by by simplify_map_eq|].
  split; [by simplify_map_eq|].
  split.
  { rewrite lookup_union_r by by simplify_map_eq.
    unfold built. destruct ns; by simplify_map_eq. }
  destruct (request POST _ w) as [r w'] eqn:Hreq. simpl.
  step_M; (split; [done|]); try reflexivity; by destruct s.
Qed.

(** X2.  On the kinds that are not namespaced (Namespace, Node,
    PersistentVolume) the namespace is [None] whatever the document
    holds, and no request of the instance has a [namespace] entry. *)
Theorem cluster_scoped_sends_no_namespace (s : APIObject) :
  namespaced (cls s) = false ->
  namespace s = Ok None /\
  (forall op w m kw, Call m kw ∈ trace (run_op op (start s w)).2 ->
     kw !! "namespace" = None).
Proof.
  intros Hn.
  assert (Hns : namespace s = Ok None) by (unfold namespace; by rewrite Hn).
  split; [done|].
  intros op w m kw (ns & Hns' & ->)%run_op_namespace.
  rewrite Hns in Hns'. by injection Hns' as <-.
Qed.

(** X3.  The dictionary [api_kwargs] returns holds every extra keyword
    argument as it was passed, these taking precedence over what the
    method computes; besides them it holds a [url], a [version] (the
    class's, unless overridden) and nothing else but [namespace]. *)
Theorem api_kwargs_keys (s : APIObject) (c : bool) (sub : option string)
    (q : option (list (string * json))) (kwargs kw : Kw) :
  api_kwargs s c sub q kwargs = Ok kw ->
  (forall k v, kwargs !! k = Some v -> kw !! k = Some v) /\
  (forall k, kwargs !! k = None ->
     k <> "url" -> k <> "version" -> k <> "namespace" -> kw !! k = None) /\
  (kwargs !! "version" = None ->
     kw !! "version" = Some (KStr (version (cls s)))) /\
  is_Some (kw !! "url").
Proof.
  rewrite api_kwargs_eq. unfold mbind, outcome_bind, mret, outcome_ret.
  destruct (base_url s c) as [u| |]; try discriminate.
  destruct (namespace s) as [ns| |]; try discriminate.
  intros [= <-]. repeat split.
  - intros k v Hk. by apply lookup_union_Some_l.
  - intros k Hk H1 H2 H3. rewrite lookup_union_r by done.
    unfold built. destruct ns; by simplify_map_eq.
  - intros Hk. by rewrite lookup_union_r, built_version.
  - destruct (kwargs !! "url") as [v|] eqn:Hk.
    + exists v. by apply lookup_union_Some_l.
    + rewrite lookup_union_r, built_url by done. eauto.
Qed.

(** X4.  When the snapshot has no readable [metadata.name], an operation
    on the singular resource sends nothing and changes nothing: it raises
    the error of that lookup (or, for [execute] off a pod, the missing
    method). *)
Theorem singular_needs_snapshot_name (op : Op) (st : St) (e : exn) :
  singular op = true -> snapshot_name (self st) = Raise e ->
  (run_op op st).2 = st /\
  ((run_op op st).1 = Raise e \/
   (run_op op st).1 = Raise (AttributeError "execute")).
Proof.
  intros Hs Hn.
  assert (Hk : forall sub q kwargs,
             api_kwargs (self st) false sub q kwargs = Raise e).
  { intros. rewrite api_kwargs_eq. unfold base_url. by rewrite Hn. }
  destruct op; try discriminate; unfold_M; rewrite ?Hk; simpl; auto.
  change (cls (self st)) with (class_of (this st)).
  destruct (class_of (this st)); simpl; rewrite ?Hk; simpl; auto.
Qed.

(** X5.  [exists] and [execute] are read-only on the instance: whatever
    the transport answers, the references the instance holds and every
    dict of the store are as before. *)
Theorem exists_execute_read_only (st : St) :
  (forall ensure,
     this (exists_ ensure st).2 = this st /\
     store (exists_ ensure st).2 = store st) /\
  (forall c i o e t n,
     this (execute c i o e t n st).2 = this st /\
     store (execute c i o e t n st).2 = store st).
Proof.
  split.
  - intros ensure. unfold_M.
    destruct (api_kwargs (self st) false None None ∅); simpl; try done.
    by step_M.
  - intros c i o e t n. unfold_M.
    change (cls (self st)) with (class_of (this st)).
    destruct (class_of (this st)); simpl; try done.
    destruct (api_kwargs _ _ _ _ _); simpl; try done.
    by step_M.
Qed.

(** ** Document, snapshot and the replica count *)

(** X6.  [set_obj] makes the dict it is given the document itself, not a
    copy, and puts an equal copy in a dict of its own as snapshot: what
    the holder of that dict writes into it afterwards shows in the
    document and never in the snapshot. *)
Theorem set_obj_shares_document_copies_snapshot (st : St) (o : loc) :
  (o < length (store st))%nat ->
  let st' := (set_obj o st).2 in
  (set_obj o st).1 = Ok tt /\
  obj_ref (this st') = o /\
  separate st' /\
  obj (self st') = deref (store st) o /\
  _original_obj (self st') = deref (store st) o /\
  (forall d,
     obj (self (caller_sets d st')) = d /\
     _original_obj (self (caller_sets d st')) = deref (store st) o).
Proof.
  intros Ho st'.
  assert (Hrun : set_obj o st =
            (Ok tt,
             {| this := {| class_of := class_of (this st); obj_ref := o;
                           _original_obj_ref := length (store st) |};
                store := store st ++ [deref (store st) o];
                api := api st; trace := trace st |})) by reflexivity.
  subst st'. rewrite Hrun. cbn [fst snd].
  set (st1 := {| this := _; store := _; api := api st; trace := trace st |}).
  assert (Hsep : separate st1).
  { unfold separate, st1. simpl. rewrite length_app. simpl. lia. }
  assert (Hobj : obj (self st1) = deref (store st) o).
  { unfold self, st1. simpl. by apply deref_app_l. }
  assert (Hsnap : _original_obj (self st1) = deref (store st) o).
  { unfold self, st1. simpl. apply deref_snoc. }
  repeat split; try done; try apply Hsep.
  all: by rewrite self_caller_sets.
Qed.

Lemma getitem_setitem2 x k1 k2 v x' :
  setitem2 x k1 k2 v = Ok x' ->
  (exists inner, getitem x' k1 = Ok inner /\ getitem inner k2 = Ok v) /\
  (forall k, k <> k1 -> getitem x' k = getitem x k).
Proof.
  unfold setitem2.
  destruct x as [| | | | |d]; try discriminate. simpl.
  destruct (assoc k1 d) as [inner|]; try discriminate.
  destruct inner as [| | | | |di]; try discriminate. simpl.
  intros [= <-]. split.
  - eexists. simpl. rewrite assoc_set_eq. split; [done|].
    simpl. by rewrite assoc_set_eq.
  - intros k Hk. simpl. by rewrite assoc_set_ne.
Qed.

Lemma set_replicas_eq v st :
  set_replicas v st =
  if replicated (cls (self st)) then
    match setitem2 (obj (self st)) "spec" "replicas" v with
    | Ok o' => (Ok tt, caller_sets o' st)
    | Raise e => (Raise e, st)
    | OutOfFuel => (OutOfFuel, st)
    end
  else (Raise (AttributeError "replicas"), st).
Proof.
  unfold set_replicas, caller_sets, get_self, lift, raise, mbind, M_bind.
  cbn beta iota.
  destruct (replicated (cls (self st))); [|done].
  by destruct (setitem2 (obj (self st)) "spec" "replicas" v).
Qed.

(** X7.  Round trip of the [replicas] property: after the setter has
    stored a value the getter returns it; the setter sends nothing,
    leaves every other top-level entry of the document alone, and does
    not touch the snapshot. *)
Theorem replicas_set_then_get (st : St) (v : json) :
  separate st -> (set_replicas v st).1 = Ok tt ->
  let st' := (set_replicas v st).2 in
  replicas (self st') = Ok v /\
  (forall k, k <> "spec" ->
     getitem (obj (self st')) k = getitem (obj (self st)) k) /\
  _original_obj (self st') = _original_obj (self st) /\
  trace st' = trace st /\ api st' = api st.
Proof.
  intros Hsep. rewrite set_replicas_eq.
  destruct (replicated (cls (self st))) eqn:Hr; [|discriminate].
  destruct (setitem2 (obj (self st)) "spec" "replicas" v) as [o'| |] eqn:Hset;
    try discriminate.
  intros _. cbn [fst snd]. rewrite self_caller_sets by done.
  destruct (getitem_setitem2 _ _ _ _ _ Hset) as ((inner & H1 & H2) & Hk).
  unfold replicas. cbn [cls obj _original_obj with_obj].
  rewrite Hr, H1. simpl. rewrite H2. repeat split; auto.
Qed.

(** X8.  The [replicas] property does not create a missing [spec]: on
    a document without one, getter and setter both raise [KeyError] for
    ["spec"], and the setter leaves the state as it was. *)
Theorem replicas_needs_spec (st : St) (v : json) (d : list (string * json)) :
  replicated (cls (self st)) = true ->
  obj (self st) = JDict d -> assoc "spec" d = None ->
  set_replicas v st = (Raise (KeyError "spec"), st) /\
  replicas (self st) = Raise (KeyError "spec").
Proof.
  intros Hr Hd Hs. rewrite set_replicas_eq. unfold replicas, setitem2.
  rewrite Hr, Hd. simpl. by rewrite Hs.
Qed.

(** ** Readiness of a pod *)

Lemma first_ready_skip pre cs :
  Forall (fun c => exists t, getitem c "type" = Ok t /\
                             py_eq t (JStr "Ready") = false) pre ->
  first_ready (pre ++ cs) = first_ready cs.
Proof.
  induction 1 as [|c pre (t & Ht & Hne) _ IH]; simpl; [done|].
  rewrite Ht. simpl. by rewrite Hne.
Qed.

(** X9.  [ready] is decided by the first condition whose type is
    ["Ready"]: with only other conditions before it, the pod is ready
    exactly when that condition's status equals the string ["True"]
    (a missing status raising), whatever conditions follow. *)
Theorem ready_first_condition (s : APIObject) (status : json)
    (pre post : list json) (c t : json) :
  cls s = Pod ->
  getitem (obj s) "status" = Ok status ->
  getitem status "conditions" = Ok (JList (pre ++ c :: post)) ->
  Forall (fun c' => exists t', getitem c' "type" = Ok t' /\
                               py_eq t' (JStr "Ready") = false) pre ->
  getitem c "type" = Ok t -> py_eq t (JStr "Ready") = true ->
  ready s = (v ← getitem c "status"; Ok (py_eq v (JStr "True"))).
Proof.
  intros Hc Hst Hcs Hpre Ht Heq. unfold ready. rewrite Hc, Hst. simpl.
  rewrite Hcs. simpl. rewrite (first_ready_skip pre (c :: post) Hpre).
  simpl. rewrite Ht. simpl. by rewrite Heq.
Qed.

(** X10.  A pod none of whose conditions has type ["Ready"] (in
    particular one with no conditions at all) is not ready, and says so
    without raising. *)
Theorem ready_without_condition (s : APIObject) (status : json)
    (cs : list json) :
  cls s = Pod ->
  getitem (obj s) "status" = Ok status ->
  getitem status "conditions" = Ok (JList cs) ->
  Forall (fun c' => exists t', getitem c' "type" = Ok t' /\
                               py_eq t' (JStr "Ready") = false) cs ->
  ready s = Ok false.
Proof.
  intros Hc Hst Hcs Hall. unfold ready. rewrite Hc, Hst. simpl.
  rewrite Hcs. simpl. rewrite <- (app_nil_r cs).
  by rewrite (first_ready_skip cs [] Hall).
Qed.

(** ** Running the operations step by step *)

Lemma M_bind_run {A B} (c : M A) (f : A -> M B) st a st1 :
  c st = (Ok a, st1) -> (c ≫= f) st = f a st1.
Proof. intros H. unfold mbind, M_bind. by rewrite H. Qed.

Lemma M_bind_raise {A B} (c : M A) (f : A -> M B) st e st1 :
  c st = (Raise e, st1) -> (c ≫= f) st = (Raise e, st1).
Proof. intros H. unfold mbind, M_bind. by rewrite H. Qed.

Lemma M_bind_fuel {A B} (c : M A) (f : A -> M B) st st1 :
  c st = (OutOfFuel, st1) -> (c ≫= f) st = (OutOfFuel, st1).
Proof. intros H. unfold mbind, M_bind. by rewrite H. Qed.

Lemma self_answered st w' ev : self (answered st w' ev) = self st.
Proof. reflexivity. Qed.

Lemma self_confirmed st b w' ev :
  self (confirmed st b w' ev) =
  {| cls := cls (self st); obj := b; _original_obj := b |}.
Proof. apply self_after_set_obj. Qed.

Lemma separate_confirmed st b w' ev : separate (confirmed st b w' ev).
Proof. unfold separate, confirmed. simpl. rewrite !length_app. simpl. lia. Qed.







Lemma exists_inv ensure st b st1 :
  exists_ ensure st = (Ok b, st1) ->
  exists kw r w',
    api_kwargs (self st) false None None ∅ = Ok kw /\
    request GET kw (api st) = (r, w') /\
    st1 = answered st w' (Call GET kw).
Proof.
  unfold_M.
  destruct (api_kwargs (self st) false None None ∅) as [kw| |]; simpl;
    try discriminate.
  destruct (request GET kw (api st)) as [r w'] eqn:Hreq.
  intros H. exists kw, r, w'. split; [done|]. split; [done|].
  revert H. step_M; intros [= <- <-] || discriminate; done.
Qed.

Lemma reload_inv st st1 :
  reload st = (Ok tt, st1) ->
  exists kw r w' b,
    api_kwargs (self st) false None None ∅ = Ok kw /\
    request GET kw (api st) = (r, w') /\ ok r = true /\ json_body r = Some b /\
    st1 = confirmed st b w' (Call GET kw).
Proof.
  unfold_M.
  destruct (api_kwargs (self st) false None None ∅) as [kw| |]; simpl;
    try discriminate.
  destruct (request GET kw (api st)) as [r w'] eqn:Hreq. simpl.
  destruct (ok r) eqn:Hok; simpl; try discriminate.
  destruct (json_body r) as [b|] eqn:Hb; simpl; try discriminate.
  intros [= <-]. by exists kw, r, w', b.
Qed.

Lemma update_inv st st1 :
  update st = (Ok tt, st1) ->
  exists kw r w' b,
    api_kwargs (self st) false None None (update_kwargs (self st)) = Ok kw /\
    request PATCH kw (api st) = (r, w') /\ ok r = true /\
    json_body r = Some b /\
    st1 = confirmed st b w' (Call PATCH kw).
Proof.
  unfold update_kwargs. unfold_M.
  destruct (api_kwargs (self st) false None None _) as [kw| |]; simpl;
    try discriminate.
  destruct (request PATCH kw (api st)) as [r w'] eqn:Hreq. simpl.
  destruct (ok r) eqn:Hok; simpl; try discriminate.
  destruct (json_body r) as [b|] eqn:Hb; simpl; try discriminate.
  intros [= <-]. by exists kw, r, w', b.
Qed.

(** ** What [scale] guarantees when it returns *)

Lemma scale_loop_returns fuel d : forall st st',
  ReplicationController_scale_loop fuel d st = (Ok tt, st') ->
  exists tr r,
    trace st' = trace st ++ tr /\ polling tr = true /\
    replicas (self st') = Ok r /\ py_eq r d = true /\
    obj (self st') = _original_obj (self st').
Proof.
  induction fuel as [|fuel IH]; intros st st' H; [discriminate|].
  simpl in H.
  destruct (reload st) as [[[]|e|] st1] eqn:Hre.
  2: by rewrite (M_bind_raise _ _ _ _ _ Hre) in H.
  2: by rewrite (M_bind_fuel _ _ _ _ Hre) in H.
  rewrite (M_bind_run _ _ _ _ _ Hre) in H.
  apply reload_inv in Hre as (kw & r & w' & b & _ & _ & _ & _ & ->).
  unfold get_self, lift in H. unfold mbind at 1 2, M_bind at 1 2 in H.
  cbn beta iota in H.
  destruct (replicas (self (confirmed st b w' (Call GET kw)))) as [v| |] eqn:Hv;
    try discriminate.
  destruct (py_eq v d) eqn:Heq.
  - injection H as <-. exists [Call GET kw], v.
    rewrite self_confirmed. repeat split; auto.
    by rewrite self_confirmed in Hv.
  - rewrite (M_bind_run _ _ _ tt
               (answered_sleep (confirmed st b w' (Call GET kw)))) in H
      by reflexivity.
    apply IH in H as (tr & r' & Htr & Hp & Hr & He & Ho).
    exists (Call GET kw :: Sleep 1 :: tr), r'. repeat split; auto.
    rewrite Htr. simpl. by rewrite <- !app_assoc.
Qed.

Lemma scale_dispatch fuel d st :
  scale fuel d st =
  match cls (self st) with
  | Job => Job_scale fuel d st
  | ReplicationController => ReplicationController_scale fuel d st
  | _ => (Raise (AttributeError "scale"), st)
  end.
Proof.
  unfold scale, get_self, raise, mbind, M_bind. cbn beta iota.
  by destruct (cls (self st)).
Qed.

(** [replicas = self.replicas if replicas is None else replicas]. *)
Lemma resolve_replicas d st d' st0 :
  (match d with
   | JNull => s ← get_self; lift (replicas s)
   | _ => mret d
   end) st = (Ok d', st0) ->
  st0 = st /\ (d <> JNull -> d' = d) /\
  (d = JNull -> replicas (self st) = Ok d').
Proof.
  destruct d; unfold get_self, lift, mbind, mret, M_bind, M_ret;
    cbn beta iota.
  1: destruct (replicas (self st)) as [r0| |]; try discriminate.
  all: intros [= <- <-]; repeat split; try done; by intros [=].
Qed.

(** X11.  When [scale] returns, it was called on a
    ReplicationController, it has sent the existence check, one PATCH,
    and then reloads with a pause of 1 between any two of them; the
    replica count of the last reload equals the count asked for (or, if
    none was given, the count the document had), and the document is in
    step with the snapshot. *)
Theorem scale_returns_converged (fuel : nat) (d : json) (st : St) :
  (scale fuel d st).1 = Ok tt ->
  let st' := (scale fuel d st).2 in
  cls (self st) = ReplicationController /\
  exists kw kw2 tr r,
    issued (scale fuel d) st = Call GET kw :: Call PATCH kw2 :: tr /\
    polling tr = true /\
    replicas (self st') = Ok r /\
    (d <> JNull -> py_eq r d = true) /\
    (d = JNull -> exists r0, replicas (self st) = Ok r0 /\ py_eq r r0 = true) /\
    obj (self st') = _original_obj (self st').
Proof.
  unfold issued. rewrite scale_dispatch.
  destruct (cls (self st)) eqn:Hc; try discriminate.
  { intros H. by apply Job_scale_never_returns in H. }
  destruct (ReplicationController_scale fuel d st) as [out st'] eqn:Hrun.
  cbn [fst snd]. intros ->. split; [done|].
  unfold ReplicationController_scale in Hrun.
  match type of Hrun with
  | (?c ≫= _) st = _ => destruct (c st) as [[d'|e|] st0] eqn:H0
  end.
  2: by rewrite (M_bind_raise _ _ _ _ _ H0) in Hrun.
  2: by rewrite (M_bind_fuel _ _ _ _ H0) in Hrun.
  rewrite (M_bind_run _ _ _ _ _ H0) in Hrun.
  apply resolve_replicas in H0 as (-> & Hd & Hnull).
  destruct (exists_ true st) as [[b|e|] st1] eqn:H1.
  2: by rewrite (M_bind_raise _ _ _ _ _ H1) in Hrun.
  2: by rewrite (M_bind_fuel _ _ _ _ H1) in Hrun.
  rewrite (M_bind_run _ _ _ _ _ H1) in Hrun.
  apply exists_inv in H1 as (kw & r1 & w1 & _ & _ & ->).
  destruct (set_replicas d' (answered st w1 (Call GET kw)))
    as [[[]|e|] st2] eqn:H2.
  2: by rewrite (M_bind_raise _ _ _ _ _ H2) in Hrun.
  2: by rewrite (M_bind_fuel _ _ _ _ H2) in Hrun.
  rewrite (M_bind_run _ _ _ _ _ H2) in Hrun.
  assert (Ht2 : trace st2 = trace st ++ [Call GET kw]).
  { rewrite set_replicas_eq in H2.
    destruct (replicated _); [|discriminate].
    destruct (setitem2 _ _ _ _); try discriminate.
    by injection H2 as <-. }
  destruct (update st2) as [[[]|e|] st3] eqn:H3.
  2: by rewrite (M_bind_raise _ _ _ _ _ H3) in Hrun.
  2: by rewrite (M_bind_fuel _ _ _ _ H3) in Hrun.
  rewrite (M_bind_run _ _ _ _ _ H3) in Hrun.
  apply update_inv in H3 as (kw2 & r2 & w2 & b2 & _ & _ & _ & _ & ->).
  apply scale_loop_returns in Hrun as (tr & r & Htr & Hp & Hr & He & Ho).
  exists kw, kw2, tr, r. repeat split; auto.
  - rewrite Htr. simpl. rewrite Ht2, <- !app_assoc. simpl.
    by rewrite drop_app_length.
  - intros Hne. by rewrite <- (Hd Hne).
  - intros Hn. exists d'. split; [by apply Hnull|done].
Qed.


Lemma sleeps_app tr tr' : sleeps (tr ++ tr') = (sleeps tr + sleeps tr')%nat.
Proof. induction tr as [|[] tr IH]; simpl; auto. Qed.

Lemma calls_app m tr tr' : calls m (tr ++ tr') = (calls m tr + calls m tr')%nat.
Proof. induction tr as [|[] tr IH]; simpl; auto. rewrite IH. lia. Qed.

(** Writing under [spec] leaves the namespace alone. *)
Lemma namespace_set_spec s k v o' :
  setitem2 (obj s) "spec" k v = Ok o' ->
  namespace (with_obj s o') = namespace s.
Proof.
  intros Hset. destruct (getitem_setitem2 _ _ _ _ _ Hset) as (_ & Hk).
  unfold namespace. cbn [cls obj with_obj].
  by rewrite (Hk "metadata").
Qed.

Lemma api_kwargs_after_set_spec s k v o' kw kwargs :
  setitem2 (obj s) "spec" k v = Ok o' ->
  api_kwargs s false None None ∅ = Ok kw ->
  api_kwargs (with_obj s o') false None None kwargs = Ok (kwargs ∪ kw).
Proof.
  intros Hset. rewrite !api_kwargs_eq, (namespace_set_spec _ _ _ _ Hset).
  change (base_url (with_obj s o') false) with (base_url s false).
  unfold mbind, outcome_bind, mret, outcome_ret.
  destruct (base_url s false) as [u| |]; try discriminate.
  destruct (namespace s) as [ns| |]; try discriminate.
  cbn [cls with_obj]. intros [= <-]. by rewrite (left_id_L ∅ (∪)).
Qed.

(** ** The trace only grows *)

Lemma grows_bind {A B} (c : M A) (f : A -> M B) :
  grows c -> (forall a, grows (f a)) -> grows (c ≫= f).
Proof.
  intros Hc Hf st. unfold mbind, M_bind.
  destruct (Hc st) as [tr Htr]. destruct (c st) as [[a|e|] st1]; simpl in *.
  - destruct (Hf a st1) as [tr' Htr']. exists (tr ++ tr').
    by rewrite Htr', Htr, app_assoc.
  - by exists tr.
  - by exists tr.
Qed.

Lemma grows_still {A} (c : M A) :
  (forall st, trace (c st).2 = trace st) -> grows c.
Proof. intros H st. exists []. by rewrite app_nil_r. Qed.

Lemma grows_api_call m kw : grows (api_call m kw).
Proof.
  intros st. unfold api_call. destruct (request m kw (api st)).
  by exists [Call m kw].
Qed.

Lemma grows_sleep n : grows (sleep n).
Proof. intros st. by exists [Sleep n]. Qed.

Ltac grows_step :=
  first
    [ apply grows_bind; [|intros ?]
    | apply grows_api_call
    | apply grows_sleep
    | match goal with
      | |- grows (if ?b then _ else _) => destruct b
      | |- grows (match ?x with _ => _ end) => destruct x
      end
    | solve [apply grows_still; intros ?; reflexivity]
    | assumption ].

Lemma grows_reload : grows reload.
Proof.
  unfold reload, raise_for_status, response_json, set_obj. repeat grows_step.
Qed.

Lemma grows_update : grows update.
Proof.
  unfold update, raise_for_status, response_json, set_obj. repeat grows_step.
Qed.

Lemma grows_ReplicationController_scale_loop fuel d :
  grows (ReplicationController_scale_loop fuel d).
Proof.
  induction fuel as [|fuel IH]; simpl.
  - by apply grows_still.
  - apply grows_bind; [apply grows_reload|intros ?]. repeat grows_step.
Qed.

Lemma assoc_set_same k v d : assoc k d = Some v -> assoc_set k v d = d.
Proof.
  induction d as [|[k' v'] d IH]; simpl; [done|].
  destruct (String.eqb k k') eqn:E.
  - apply String.eqb_eq in E. by intros [= ->]; subst.
  - intros H. by rewrite IH.
Qed.

(** Storing the count that is already there changes nothing. *)
Lemma setitem2_same x k1 k2 inner v x' :
  getitem x k1 = Ok inner -> getitem inner k2 = Ok v ->
  setitem2 x k1 k2 v = Ok x' -> x' = x.
Proof.
  unfold setitem2. intros H1 H2. rewrite H1.
  destruct inner as [| | | | |di]; try discriminate. simpl in *.
  destruct x as [| | | | |dx]; try discriminate. simpl in *.
  destruct (assoc k1 dx) as [i'|] eqn:Hk1; try discriminate.
  destruct (assoc k2 di) as [v'|] eqn:Hk2; try discriminate.
  injection H1 as ->. injection H2 as ->. intros [= <-].
  by rewrite (assoc_set_same k2 v di), (assoc_set_same k1 (JDict di) dx).
Qed.

Lemma exists_run_ok ensure st kw r w' :
  api_kwargs (self st) false None None ∅ = Ok kw ->
  request GET kw (api st) = (r, w') -> ok r = true ->
  exists_ ensure st = (Ok true, answered st w' (Call GET kw)).
Proof.
  intros Hkw Hreq Hs. unfold_M. rewrite Hkw. simpl. rewrite Hreq. simpl.
  rewrite Hs. by destruct (negb _).
Qed.

(** X14.  Once the existence check has passed, [scale] on a
    ReplicationController writes the count asked for into the document
    and sends, as its second request, a PATCH to the same URL whose body
    is the edit script from the snapshot to that document.  With no
    count given the document is left exactly as it was, and the PATCH is
    sent all the same. *)
Theorem scale_patches_desired (fuel : nat) (d d' : json) (st : St)
    (kw : Kw) (r1 : Response) (w1 : World) (o' : json) :
  cls (self st) = ReplicationController -> separate st ->
  (d <> JNull /\ d' = d) \/ (d = JNull /\ replicas (self st) = Ok d') ->
  api_kwargs (self st) false None None ∅ = Ok kw ->
  request GET kw (api st) = (r1, w1) -> ok r1 = true ->
  setitem2 (obj (self st)) "spec" "replicas" d' = Ok o' ->
  (exists kw2 tr,
     issued (scale fuel d) st = Call GET kw :: Call PATCH kw2 :: tr /\
     kw2 !! "url" = kw !! "url" /\
     kw2 !! "data" =
       Some (KStr (json_dumps
                     (JList (make_patch (_original_obj (self st)) o'))))) /\
  (d = JNull -> o' = obj (self st)).
Proof.
  intros Hc Hsep Hd Hkw Hreq Hok Hset. split.
  2: { intros Hn. destruct Hd as [[Hd _]|[_ Hr]]; [done|].
       unfold replicas in Hr. rewrite Hc in Hr. cbn [replicated] in Hr.
       unfold mbind, outcome_bind in Hr.
       destruct (getitem (obj (self st)) "spec") as [sp| |] eqn:Hsp;
         try discriminate.
       by apply (setitem2_same _ _ _ _ _ _ Hsp Hr Hset). }
  set (st1 := answered st w1 (Call GET kw)).
  set (st2 := caller_sets o' st1).
  set (kw2 := update_kwargs (self st2) ∪ kw).
  assert (H0 : (match d with
                | JNull => s ← get_self; lift (replicas s)
                | _ => mret d
                end) st = (Ok d', st)).
  { destruct Hd as [[Hd ->]|[-> Hr]]; [by destruct d|].
    unfold get_self, lift, mbind, M_bind. cbn beta iota. by rewrite Hr. }
  assert (H1 : exists_ true st = (Ok true, st1)).
  { by apply (exists_run_ok true st kw r1 w1). }
  assert (H2 : set_replicas d' st1 = (Ok tt, st2)).
  { rewrite set_replicas_eq. unfold st1. rewrite self_answered, Hc.
    cbn [replicated]. by rewrite Hset. }
  assert (Hs2 : self st2 = with_obj (self st) o').
  { unfold st2. by rewrite self_caller_sets. }
  assert (Hk2 : api_kwargs (self st2) false None None
                  (update_kwargs (self st2)) = Ok kw2).
  { unfold kw2. rewrite Hs2.
    by apply (api_kwargs_after_set_spec _ "replicas" d'). }
  assert (H3 : trace (update st2).2 = trace st2 ++ [Call PATCH kw2]).
  { change update with (run_op OpUpdate). rewrite run_op_trace.
    cbn [op_request]. unfold update_kwargs in Hk2. by rewrite Hk2. }
  assert (Hall : exists tr,
             trace (scale fuel d st).2 =
             trace st ++ Call GET kw :: Call PATCH kw2 :: tr).
  { rewrite scale_dispatch, Hc. unfold ReplicationController_scale.
    rewrite (M_bind_run _ _ _ _ _ H0), (M_bind_run _ _ _ _ _ H1).
    rewrite (M_bind_run _ _ _ _ _ H2).
    destruct (update st2) as [[[]|e|] st3] eqn:Hu; cbn [snd] in H3.
    - rewrite (M_bind_run _ _ _ _ _ Hu).
      destruct (grows_ReplicationController_scale_loop fuel d' st3)
        as [tr Htr].
      exists tr. rewrite Htr, H3. simpl. by rewrite <- !app_assoc.
    - rewrite (M_bind_raise _ _ _ _ _ Hu). exists []. cbn [snd].
      rewrite H3. simpl. by rewrite <- !app_assoc.
    - rewrite (M_bind_fuel _ _ _ _ Hu). exists []. cbn [snd].
      rewrite H3. simpl. by rewrite <- !app_assoc. }
  destruct Hall as [tr Htr]. exists kw2, tr. split; [|split].
  - unfold issued. by rewrite Htr, drop_app_length.
  - unfold kw2. rewrite lookup_union_r; [done|].
    unfold update_kwargs. by simplify_map_eq.
  - unfold kw2. apply lookup_union_Some_l. rewrite Hs2.
    unfold update_kwargs. by simplify_map_eq.
Qed.

(** ** [Job.scale] always ends in an exception *)

Lemma getitem_finishes x k : getitem x k <> OutOfFuel.
Proof. destruct x as [| | | | |d]; try done. simpl. by destruct (assoc k d). Qed.

Lemma get_finishes x k : get x k <> OutOfFuel.
Proof. by destruct x. Qed.

Lemma outcome_bind_finishes {A B} (c : outcome A) (f : A -> outcome B) :
  c <> OutOfFuel -> (forall a, f a <> OutOfFuel) -> c ≫= f <> OutOfFuel.
Proof. intros Hc Hf. destruct c; simpl; auto. Qed.

Lemma setitem2_finishes x k1 k2 v : setitem2 x k1 k2 v <> OutOfFuel.
Proof.
  unfold setitem2. pose proof (getitem_finishes x k1) as H.
  destruct (getitem x k1) as [inner| |]; try done.
  destruct inner; try done. simpl. by destruct x.
Qed.

Lemma namespace_finishes s : namespace s <> OutOfFuel.
Proof.
  unfold namespace. destruct (namespaced (cls s)); [|done].
  apply outcome_bind_finishes; [apply getitem_finishes|intros m].
  apply outcome_bind_finishes; [apply get_finishes|intros ns].
  destruct (truthy ns); [|done].
  apply outcome_bind_finishes; [apply getitem_finishes|intros m'].
  apply outcome_bind_finishes; [apply getitem_finishes|done].
Qed.

Lemma api_kwargs_finishes s c sub q kwargs :
  api_kwargs s c sub q kwargs <> OutOfFuel.
Proof.
  rewrite api_kwargs_eq.
  apply outcome_bind_finishes.
  - unfold base_url, snapshot_name. destruct c; [done|].
    apply outcome_bind_finishes; [|done].
    apply outcome_bind_finishes; [apply getitem_finishes|intros m].
    apply getitem_finishes.
  - intros u. apply outcome_bind_finishes; [apply namespace_finishes|done].
Qed.

Lemma name_finishes s : name s <> OutOfFuel.
Proof.
  unfold name. apply outcome_bind_finishes; [apply getitem_finishes|intros m].
  apply getitem_finishes.
Qed.

Lemma finishes_bind {A B} (c : M A) (f : A -> M B) :
  finishes c -> (forall a, finishes (f a)) -> finishes (c ≫= f).
Proof.
  intros Hc Hf st. unfold mbind, M_bind. specialize (Hc st).
  destruct (c st) as [[a|e|] st1]; simpl in *; try done. apply Hf.
Qed.

Lemma finishes_lift {A} (c : outcome A) : c <> OutOfFuel -> finishes (lift c).
Proof. by intros Hc st. Qed.

Lemma finishes_api_call m kw : finishes (api_call m kw).
Proof. intros st. unfold api_call. by destruct (request m kw (api st)). Qed.

Ltac finishes_step :=
  first
    [ apply finishes_bind; [|intros ?]
    | apply finishes_api_call
    | apply finishes_lift;
      first [ apply api_kwargs_finishes | apply name_finishes
            | apply getitem_finishes | apply setitem2_finishes ]
    | match goal with
      | |- finishes (if ?b then _ else _) => destruct b
      | |- finishes (match ?x with _ => _ end) => destruct x
      end
    | solve [intros ?; discriminate] ].

Lemma finishes_exists ensure : finishes (exists_ ensure).
Proof. unfold exists_, raise_for_status. repeat finishes_step. Qed.

Lemma finishes_reload : finishes reload.
Proof.
  unfold reload, raise_for_status, response_json, set_obj.
  repeat finishes_step.
Qed.

Lemma finishes_update : finishes update.
Proof.
  unfold update, raise_for_status, response_json, set_obj.
  repeat finishes_step.
Qed.

Lemma always_raises_bind {A B} (c : M A) (f : A -> M B) :
  finishes c -> (forall a, always_raises (f a)) -> always_raises (c ≫= f).
Proof.
  intros Hc Hf st. unfold mbind, M_bind. specialize (Hc st).
  destruct (c st) as [[a|e|] st1]; simpl in *; [apply Hf|eauto|done].
Qed.

Lemma Job_scale_loop_raises fuel p :
  always_raises (Job_scale_loop (S fuel) p).
Proof.
  cbn [Job_scale_loop].
  apply always_raises_bind; [apply finishes_reload|intros _].
  intros st. by exists (AttributeError "self").
Qed.

Lemma Job_scale_loop_one_round fuel p st :
  Job_scale_loop (S fuel) p st = Job_scale_loop 1 p st.
Proof.
  cbn [Job_scale_loop]. unfold mbind at 1 7, M_bind at 1 7.
  by destruct (reload st) as [[[]|e|] st1].
Qed.

(** X15.  [Job.scale], once given room for one round of its loop, ends
    in an exception from every state and on every transport, and more
    room changes nothing: it never gets past the first reload, never
    pauses and never returns. *)
Theorem Job_scale_always_raises (fuel : nat) (d : json) (st : St) :
  (exists e, (Job_scale (S fuel) d st).1 = Raise e) /\
  Job_scale (S fuel) d st = Job_scale 1 d st.
Proof.
  split.
  - revert st. change (always_raises (Job_scale (S fuel) d)).
    unfold Job_scale.
    apply always_raises_bind; [destruct d; repeat finishes_step|intros p].
    apply always_raises_bind; [apply finishes_exists|intros _].
    apply always_raises_bind; [repeat finishes_step|intros s].
    apply always_raises_bind; [repeat finishes_step|intros o].
    apply always_raises_bind; [repeat finishes_step|intros _].
    apply always_raises_bind; [apply finishes_update|intros _].
    apply Job_scale_loop_raises.
  - unfold Job_scale. unfold mbind, M_bind.
    repeat match goal with
           | |- context [match ?c ?s with _ => _ end] =>
               lazymatch c with
               | Job_scale_loop _ _ => fail
               | _ => destruct (c s) as [[?|?|] ?]; try reflexivity
               end
           end.
Qed.

(** ** The parameters of [execute], in closed form *)

Lemma match_null {A} (x : json) (a b : A) :
  match x with
  | JNull => a
  | JBool _ | JNum _ | JStr _ | JList _ | JDict _ => b
  end = if is_null x then a else b.
Proof. by destruct x. Qed.

(** X16.  The query parameters of [execute] are the command followed by
    one entry for each option that was supplied, in the order stdin,
    stdout, stderr, tty, container, and nothing else: the first three as
    lower-cased strings, [tty] and [container] as they were passed. *)
Theorem execute_params_exact (c i o e t n : json) :
  execute_params c i o e t n =
  ("command", JStr (py_str c)) ::
  supplied "stdin" i (JStr (lower (py_str i))) ++
  supplied "stdout" o (JStr (lower (py_str o))) ++
  supplied "stderr" e (JStr (lower (py_str e))) ++
  supplied "tty" t t ++
  supplied "container" n n.
Proof.
  unfold execute_params, supplied. rewrite !match_null.
  by destruct (is_null i), (is_null o), (is_null e), (is_null t), (is_null n).
Qed.

(** ** After a confirmed answer *)



End Theory.

(** ** A server that never gets there *)

Section Diverging.
Context {L : Library} (b d v : json) (kwb : Kw).
Hypothesis b_target :
  api_kwargs (new ReplicationController b) false None None ∅ = Ok kwb.
Hypothesis b_replicas : replicas (new ReplicationController b) = Ok v.
Hypothesis b_differs : py_eq v d = false.



End Diverging.

(** ** The scenarios, run on the test doubles *)

Section Scenarios.
Context {L : Library}.
#[local] Existing Instance scripted.

(** C2, at an input where the code departs from it.  A job with
    parallelism 1 is scaled to 3 on a transport where the job exists, the
    update succeeds and the first reload already reports 3: after the
    existence check, the PATCH and one reload, [scale] raises
    [AttributeError] for [self.self] instead of returning; it does so for
    every fuel, and never sleeps. *)
Theorem Job_scale_attribute_error (fuel : nat) :
  let res := scale (S fuel) (JNum 3) (start (new Job (job_batch 1)) job_script) in
  res.1 = Raise (AttributeError "self") /\
  view (trace res.2) =
    [Sent GET (Some (KStr "jobs/batch")); Sent PATCH (Some (KStr "jobs/batch"));
     Sent GET (Some (KStr "jobs/batch"))] /\
  getitem (obj (self res.2)) "spec" = Ok (JDict [("parallelism", JNum 3)]).
Proof. vm_compute. repeat split. Qed.

(** C7, as the code has it.  A ReplicationController built with one
    replica is scaled to 3 on a transport where the existence check and
    the update succeed and the reloads report 1 and then 3: [scale]
    returns, having sent the existence check, the PATCH and exactly two
    reloads with one pause of 1 between them, and the instance then has 3
    replicas. *)
Theorem ReplicationController_scale_converges (fuel : nat) :
  let res := scale (S (S fuel)) (JNum 3)
               (start (new ReplicationController (web 1)) scale_script) in
  res.1 = Ok tt /\
  view (trace res.2) =
    [Sent GET (Some (KStr "replicationcontrollers/web"));
     Sent PATCH (Some (KStr "replicationcontrollers/web"));
     Sent GET (Some (KStr "replicationcontrollers/web"));
     Slept 1;
     Sent GET (Some (KStr "replicationcontrollers/web"))] /\
  replicas (self res.2) = Ok (JNum 3) /\
  api res.2 = [].
Proof. vm_compute. repeat split. Qed.

End Scenarios.

(** ** Concrete runs *)

#[local] Existing Instance scripted.
#[local] Existing Instance demo_library.

(** C7 as stated fails: [Deployment] has no [scale]; the call raises
    [AttributeError] for every fuel and nothing is sent. *)
Lemma Deployment_scale_counterexample :
  ~ exists fuel,
      (scale fuel (JNum 3) (start (new Deployment (web 1)) scale_script)).1 = Ok tt.
Proof. intros [fuel H]. vm_compute in H. discriminate H. Qed.

(** C4 as stated fails at status 204: it is neither 200 nor 404, yet
    [exists] raises nothing and returns true. *)
Lemma exists_other_status_counterexample :
  ~ forall (ensure : bool) (r : Response),
      status_code r <> 200 -> status_code r <> 404 ->
      exists e, (exists_ ensure (start pod_p1 [r])).1 = Raise e.
Proof.
  intros H. destruct (H false (status_only 204)) as [e He]; [done..|].
  vm_compute in He. discriminate He.
Qed.

(** C8, at an input where the code departs from it.  [execute] called
    with [stdin=True] and [tty=True]: [stdin] is turned into the string
    ["true"], but [tty] is stored as the boolean it was given, so the
    query string reads [tty=True], not [tty=true]. *)
Theorem execute_tty_not_lowercased :
  let run := execute (JStr "ls") (JBool true) JNull JNull (JBool true) JNull in
  execute_params (JStr "ls") (JBool true) JNull JNull (JBool true) JNull =
    [("command", JStr "ls"); ("stdin", JStr "true"); ("tty", JBool true)] /\
  (run (start pod_p1 [mkResponse 200 None "out"])).1 = Ok "out" /\
  view (trace (run (start pod_p1 [mkResponse 200 None "out"])).2) =
    [Sent GET (Some (KStr "pods/p1/exec?command=ls&stdin=true&tty=True"))].
Proof. vm_compute. repeat split. Qed.

Lemma request_name_from_snapshot_witness :
  singular OpUpdate = true /\ separate pod_p1_constructed /\
  forall n d,
    setitem2 (obj (self pod_p1_constructed)) "metadata" "name" n = Ok d ->
    targets (issued update (caller_sets d pod_p1_constructed)) =
    targets (issued update pod_p1_constructed).
Proof.
  assert (Hsep : separate pod_p1_constructed).
  { unfold separate. simpl. lia. }
  split; [reflexivity|]. split; [exact Hsep|].
  apply (request_name_from_snapshot (T:=scripted) (L:=demo_library) OpUpdate
           pod_p1_constructed).
  - reflexivity.
  - exact Hsep.
Defined.

Lemma namespace_default_when_absent_witness :
  namespaced (cls pod_p1) = true /\
  getitem (obj pod_p1) "metadata" = Ok (JDict [("name", JStr "p1")]) /\
  assoc "namespace" [("name", JStr "p1")] = None /\
  namespace pod_p1 = Ok (Some (JStr "default")).
Proof.
  split; [reflexivity|]. split; [reflexivity|]. split; [reflexivity|].
  apply (namespace_default_when_absent (T:=scripted) (L:=demo_library)
           pod_p1 [("name", JStr "p1")]);
    reflexivity.
Defined.

Lemma namespace_never_falsy_witness :
  namespaced (cls pod_blank_namespace) = true /\
  namespace pod_blank_namespace = Ok (Some (JStr "default")).
Proof.
  split; [reflexivity|].
  apply (proj1 (namespace_never_falsy (T:=scripted) (L:=demo_library)
                  pod_blank_namespace eq_refl)
           [("name", JStr "p1"); ("namespace", JStr "")] (JStr ""));
    reflexivity.
Defined.

Lemma exists_by_status_witness :
  api_kwargs pod_p1 false None None ∅ = Ok pod_p1_kw /\
  (exists_ false (start pod_p1 [status_only 404])).1 = Ok false /\
  (exists_ true (start pod_p1 [status_only 204])).1 = Ok true.
Proof.
  split; [reflexivity|]. split.
  - destruct (exists_by_status (T:=scripted) (L:=demo_library)
                false pod_p1 [status_only 404] pod_p1_kw eq_refl)
      as (_ & _ & _ & _ & H & _).
    apply H; reflexivity.
  - destruct (exists_by_status (T:=scripted) (L:=demo_library)
                true pod_p1 [status_only 204] pod_p1_kw eq_refl)
      as (_ & _ & _ & _ & _ & _ & _ & H).
    apply H. simpl. lia.
Defined.

Lemma delete_by_status_witness :
  api_kwargs pod_p1 false None None ∅ = Ok pod_p1_kw /\
  (delete (start pod_p1 [status_only 404])).1 = Ok tt.
Proof.
  split; [reflexivity|].
  destruct (delete_by_status (T:=scripted) (L:=demo_library)
              pod_p1 [status_only 404] pod_p1_kw eq_refl)
    as (_ & _ & _ & H & _).
  apply H. reflexivity.
Defined.

Lemma update_sends_patch_witness :
  snapshot_name pod_p1 = Ok (JStr "p1") /\
  namespace pod_p1 = Ok (Some (JStr "default")) /\
  make_patch (_original_obj pod_p1) (obj pod_p1) = [] /\
  exists kw,
    trace (update (start pod_p1 [ok_body (named "p1" [])])).2 = [Call PATCH kw] /\
    kw !! "data" = Some (KStr "[]").
Proof.
  split; [reflexivity|]. split; [reflexivity|]. split; [reflexivity|].
  destruct (update_sends_patch (T:=scripted) (L:=demo_library)
              pod_p1 [ok_body (named "p1" [])] (JStr "p1")
              (Some (JStr "default")) eq_refl eq_refl)
    as (kw & Htr & _ & _ & Hdata & _).
  exists kw. split; [exact Htr|exact Hdata].
Defined.

(** ** Checks on small inputs *)

Example py_eq_bool_int : py_eq (JBool true) (JNum 1) = true.
Proof. reflexivity. Qed.

Example py_eq_dict_unordered :
  py_eq (JDict [("a", JNum 1); ("b", JNull)]) (JDict [("b", JNull); ("a", JNum 1)])
  = true.
Proof. reflexivity. Qed.

Example lower_True : lower "True" = "true".
Proof. reflexivity. Qed.

Example quote_plus_space : demo_quote_plus "ls -l /" = "ls+-l+%2F".
Proof. reflexivity. Qed.

Example create_goes_to_collection :
  view (trace (create (start pod_p1 [ok_body (named "p1" [])])).2) =
  [Sent POST (Some (KStr "pods"))].
Proof. vm_compute. reflexivity. Qed.

(** A write through the dict the caller shares with the instance reaches
    the document, not the snapshot, and the PATCH still goes to [p1]. *)
Example caller_write_reaches_document :
  let st := caller_sets (named "other" []) pod_p1_constructed in
  obj (self st) = named "other" [] /\
  _original_obj (self st) = named "p1" [] /\
  view (issued update st) = [Sent PATCH (Some (KStr "pods/p1"))].
Proof. vm_compute. repeat split. Qed.

Example exists_ensure_absent :
  (exists_ true (start pod_p1 [status_only 404])).1 =
  Raise (ObjectDoesNotExist "p1 does not exist.").
Proof. vm_compute. reflexivity. Qed.

Example exists_server_error :
  (exists_ false (start pod_p1 [status_only 500])).1 = Raise (HTTPError 500).
Proof. vm_compute. reflexivity. Qed.

Example delete_server_error :
  (delete (start pod_p1 [status_only 500])).1 = Raise (HTTPError 500).
Proof. vm_compute. reflexivity. Qed.

(** A job that does not exist remotely: [scale] raises
    [ObjectDoesNotExist] after the existence check, with the instance
    untouched. *)
Example Job_scale_absent :
  let res := scale 3 (JNum 3) (start (new Job (job_batch 1)) [status_only 404]) in
  res.1 = Raise (ObjectDoesNotExist "batch does not exist.") /\
  self res.2 = new Job (job_batch 1) /\
  view (trace res.2) = [Sent GET (Some (KStr "jobs/batch"))].
Proof. vm_compute. repeat split. Qed.

(** A controller that never converges exhausts any fuel. *)
Example scale_not_converging :
  (scale 2 (JNum 3)
     (start (new ReplicationController (web 1))
        [status_only 200; ok_body (web 1); ok_body (web 1); ok_body (web 1)])).1
  = OutOfFuel.
Proof. vm_compute. reflexivity. Qed.

(** ** The further properties at concrete inputs *)

Lemma create_posts_to_collection_witness :
  namespace nameless_pod = Ok (Some (JStr "default")) /\
  view (trace (create (start (T:=scripted) nameless_pod [ok_body (named "p-x7" [])])).2) =
    [Sent POST (Some (KStr "pods"))].
Proof.
  split; [reflexivity|].
  destruct (create_posts_to_collection (T:=scripted) (L:=demo_library)
              nameless_pod [ok_body (named "p-x7" [])]
              (Some (JStr "default")) eq_refl)
    as (kw & Htr & Hurl & _).
  rewrite Htr. simpl. by rewrite Hurl.
Defined.

Lemma cluster_scoped_sends_no_namespace_witness :
  namespaced (cls node_n1) = false /\ namespace node_n1 = Ok None.
Proof.
  split; [reflexivity|].
  apply (cluster_scoped_sends_no_namespace (T:=scripted) (L:=demo_library)
           node_n1). reflexivity.
Defined.

Lemma api_kwargs_keys_witness :
  api_kwargs pod_p1 false None None {[ "url" := KStr "elsewhere" ]} =
    Ok ({[ "url" := KStr "elsewhere" ]} ∪ pod_p1_kw) /\
  ({[ "url" := KStr "elsewhere" ]} ∪ pod_p1_kw) !! "url" =
    Some (KStr "elsewhere").
Proof.
  split; [reflexivity|].
  apply (api_kwargs_keys (L:=demo_library) pod_p1 false None
           None {[ "url" := KStr "elsewhere" ]}); reflexivity.
Defined.

Lemma singular_needs_snapshot_name_witness :
  let st := @start scripted nameless_pod [ok_body (named "p1" [])] in
  singular OpReload = true /\
  snapshot_name (self st) = Raise (KeyError "name") /\
  (run_op OpReload st).2 = st.
Proof.
  split; [reflexivity|]. split; [reflexivity|].
  apply (singular_needs_snapshot_name (T:=scripted) (L:=demo_library)
           OpReload (start (T:=scripted) nameless_pod [ok_body (named "p1" [])])
           (KeyError "name")); reflexivity.
Defined.

Lemma set_obj_shares_document_copies_snapshot_witness :
  (0 < length (store pod_p1_constructed))%nat /\
  obj_ref (this (set_obj 0%nat pod_p1_constructed).2) = 0%nat.
Proof.
  assert (H : (0 < length (store pod_p1_constructed))%nat) by (simpl; lia).
  split; [exact H|].
  apply (set_obj_shares_document_copies_snapshot (T:=scripted)
           pod_p1_constructed 0%nat H).
Defined.

Lemma replicas_set_then_get_witness :
  let st := @start scripted (new ReplicationController (web 1)) [] in
  separate st /\ (set_replicas (JNum 3) st).1 = Ok tt /\
  replicas (self (set_replicas (JNum 3) st).2) = Ok (JNum 3).
Proof.
  assert (H : separate (@start scripted (new ReplicationController (web 1)) []))
    by (unfold separate; simpl; lia).
  split; [exact H|]. split; [reflexivity|].
  apply (replicas_set_then_get (T:=scripted)
           (start (T:=scripted) (new ReplicationController (web 1)) []) (JNum 3) H eq_refl).
Defined.

Lemma replicas_needs_spec_witness :
  let st := @start scripted
              (new Deployment (JDict [("metadata", JDict [("name", JStr "web")])]))
              [] in
  replicated (cls (self st)) = true /\
  replicas (self st) = Raise (KeyError "spec").
Proof.
  split; [reflexivity|].
  apply (replicas_needs_spec (T:=scripted)
           (start (T:=scripted) (new Deployment
                     (JDict [("metadata", JDict [("name", JStr "web")])])) [])
           (JNum 3) [("metadata", JDict [("name", JStr "web")])]);
    reflexivity.
Defined.

Lemma ready_first_condition_witness :
  let s := pod_conditions [condition "Initialized" "True";
                           condition "Ready" "False";
                           condition "Ready" "True"] in
  cls s = Pod /\ ready s = Ok false.
Proof.
  split; [reflexivity|].
  apply (ready_first_condition
           (pod_conditions [condition "Initialized" "True";
                            condition "Ready" "False";
                            condition "Ready" "True"])
           (JDict [("conditions",
                    JList [condition "Initialized" "True";
                           condition "Ready" "False";
                           condition "Ready" "True"])])
           [condition "Initialized" "True"] [condition "Ready" "True"]
           (condition "Ready" "False") (JStr "Ready")); try reflexivity.
  constructor; [|constructor]. exists (JStr "Initialized"). by split.
Defined.

Lemma ready_without_condition_witness :
  cls (pod_conditions []) = Pod /\ ready (pod_conditions []) = Ok false.
Proof.
  split; [reflexivity|].
  apply (ready_without_condition (pod_conditions [])
           (JDict [("conditions", JList [])]) []); try reflexivity.
  constructor.
Defined.

Lemma scale_returns_converged_witness :
  let st := @start scripted (new ReplicationController (web 1)) scale_script in
  (scale 2 (JNum 3) st).1 = Ok tt /\
  cls (self st) = ReplicationController.
Proof.
  split; [reflexivity|].
  apply (scale_returns_converged (T:=scripted) (L:=demo_library) 2 (JNum 3)
           (start (T:=scripted) (new ReplicationController (web 1)) scale_script)).
  reflexivity.
Defined.



Lemma scale_patches_desired_witness :
  let st := @start scripted (new ReplicationController (web 1)) scale_script in
  replicas (self st) = Ok (JNum 1) /\
  setitem2 (obj (self st)) "spec" "replicas" (JNum 1) = Ok (web 1) /\
  (JNull = JNull -> web 1 = obj (self st)).
Proof.
  split; [reflexivity|]. split; [reflexivity|].
  apply (scale_patches_desired (T:=scripted) (L:=demo_library) 2 JNull (JNum 1)
           (start (T:=scripted) (new ReplicationController (web 1)) scale_script)
           (∅ ∪ built ReplicationController "replicationcontrollers/web"
                  "replicationcontrollers/web" (Some (JStr "default")))
           (status_only 200)
           [ok_body (web 3); ok_body (web 1); ok_body (web 3)] (web 1));
    try reflexivity; [unfold separate; simpl; lia|by right].
Defined.


Lemma Pod_execute_spec_witness :
  cls pod_p1 = Pod /\
  (execute (JStr "ls") JNull JNull JNull JNull JNull
     (start (T:=scripted) pod_p1 [mkResponse 200 None "out"])).1 = Ok "out".
Proof.
  split; [reflexivity|].
  destruct (Pod_execute_spec (T:=scripted) (L:=demo_library)
              (JStr "ls") JNull JNull JNull JNull JNull pod_p1
              [mkResponse 200 None "out"]
              (∅ ∪ built Pod "pods/p1" "pods/p1/exec?command=ls"
                     (Some (JStr "default")))
              eq_refl eq_refl) as (_ & _ & _ & H).
  exact H.
Defined.

(** A pod whose first [Ready] condition says ["True"] is ready. *)
Example ready_pod :
  ready (pod_conditions [condition "Initialized" "True";
                         condition "Ready" "True"]) = Ok true.
Proof. reflexivity. Qed.

(** [conditions] that is not a list of mappings: iterating the keys of a
    dict, the lookup of ["type"] on a string raises [TypeError]. *)
Example ready_conditions_dict :
  ready (new Pod (JDict [("status",
                          JDict [("conditions", JDict [("Ready", JStr "True")])])]))
  = Raise TypeError.
Proof. reflexivity. Qed.
